(** * The chat and upload client of [src/scripts/script.js]

    The script is a browser-side controller: it reacts to clicks and key
    presses, posts to [/chat] and [/upload] with [fetch], and writes the
    outcome into the page.  It is embedded here as an event-driven
    transition system:

    - the page elements the script touches, the remembered file name, the
      pending timers and the requests issued so far form the [state];
    - an [async] function is cut at each [await]: the part that runs up to
      the first [await] is a function on states that leaves a suspended
      [task] behind, and each later part is a function that resumes such a
      task with what the awaited promise settled to;
    - everything the script does not decide (what the user types, what the
      server answers, when time passes) is an [event].

    JavaScript strings are lists of UTF-16 code units; JavaScript values are
    the values [JSON.parse] can return, plus [undefined]. *)

From Stdlib Require Import String Ascii NArith List Lia.
From stdpp Require Import base option list gmap.
Import ListNotations.

Open Scope N_scope.

(** ** Strings *)

Definition jsstring := list N.

(** A string literal of the script (all of them are ASCII). *)
Fixpoint lit (s : string) : jsstring :=
  match s with
  | EmptyString => []
  | String a s' => N_of_ascii a :: lit s'
  end.
Arguments lit s%_string : simpl never.

(** ECMAScript's WhiteSpace and LineTerminator code points, the ones
    [String.prototype.trim] strips. *)
Definition is_whitespace (c : N) : bool :=
  (c =? 0x09) || (c =? 0x0A) || (c =? 0x0B) || (c =? 0x0C) || (c =? 0x0D)
  || (c =? 0x20) || (c =? 0xA0) || (c =? 0x1680)
  || ((0x2000 <=? c) && (c <=? 0x200A))
  || (c =? 0x2028) || (c =? 0x2029) || (c =? 0x202F) || (c =? 0x205F)
  || (c =? 0x3000) || (c =? 0xFEFF).

Fixpoint trimStart (s : jsstring) : jsstring :=
  match s with
  | c :: s' => if is_whitespace c then trimStart s' else s
  | [] => []
  end.

Definition trimEnd (s : jsstring) : jsstring := rev (trimStart (rev s)).

Definition trim (s : jsstring) : jsstring := trimEnd (trimStart s).

(** [s.startsWith(p)] and [s.includes(p)]. *)
Fixpoint startsWith (p s : jsstring) : bool :=
  match p, s with
  | [], _ => true
  | a :: p', b :: s' => (a =? b) && startsWith p' s'
  | _ :: _, [] => false
  end.

Fixpoint includes (p s : jsstring) : bool :=
  startsWith p s || match s with [] => false | _ :: s' => includes p s' end.

(** Decimal digits of a natural number, as [Number.prototype.toString]
    prints an HTTP status. *)
Fixpoint digits (u : Decimal.uint) : jsstring :=
  match u with
  | Decimal.Nil => []
  | Decimal.D0 u => 48 :: digits u
  | Decimal.D1 u => 49 :: digits u
  | Decimal.D2 u => 50 :: digits u
  | Decimal.D3 u => 51 :: digits u
  | Decimal.D4 u => 52 :: digits u
  | Decimal.D5 u => 53 :: digits u
  | Decimal.D6 u => 54 :: digits u
  | Decimal.D7 u => 55 :: digits u
  | Decimal.D8 u => 56 :: digits u
  | Decimal.D9 u => 57 :: digits u
  end.

Definition decimal (n : N) : jsstring := digits (N.to_uint n).

(** ** Values *)

(** The values that reach the script: what [JSON.parse] returns, and
    [undefined] for a property that is not there.  A number is held by its
    canonical decimal text (what [ToString] gives for it): the script only
    tests numbers for truthiness and prints them. *)
#[warnings="-register-all"]
Inductive jsval :=
| undefined
| null
| boolean (b : bool)
| number (text : jsstring)
| str (s : jsstring)
| array (items : list jsval)
| object (props : list (jsstring * jsval)).

(** What a [throw] carries.  [Error m] is an [Error] object with message
    [m]: the script's own [new Error(m)], and the rejections of [fetch] and
    [response.json()], whose message the browser words.  The engine raises
    a [TypeError] when a property of [null] is read and when an object has
    no primitive value. *)
Inductive type_error :=
| reads_null (property : jsstring)
| no_primitive.

Inductive error :=
| Error (message : jsstring)
| TypeError (why : type_error).

Inductive result (A : Type) :=
| Ok (a : A)
| Throw (e : error).
Arguments Ok {A} a.
Arguments Throw {A} e.

#[global] Instance result_ret : MRet result := fun A a => Ok a.
#[global] Instance result_bind : MBind result := fun A B f m =>
  match m with
  | Ok a => f a
  | Throw e => Throw e
  end.

(** An own property of a parsed object. *)
Fixpoint own (p : jsstring) (props : list (jsstring * jsval)) : option jsval :=
  match props with
  | [] => None
  | (k, v) :: rest => if decide (k = p) then Some v else own p rest
  end.

(** [v.p], for the three property names the script reads ([response],
    [message], [filename]): no prototype defines them, so only an object's
    own property can answer, and reading them from [null] throws. *)
Definition Get (v : jsval) (p : jsstring) : result jsval :=
  match v with
  | undefined | null => Throw (TypeError (reads_null p))
  | object props => Ok (default undefined (own p props))
  | _ => Ok undefined
  end.

Definition ToBoolean (v : jsval) : bool :=
  match v with
  | undefined | null => false
  | boolean b => b
  | number t => negb (bool_decide (t = lit "0") || bool_decide (t = lit "NaN"))
  | str s => negb (bool_decide (s = []))
  | array _ | object _ => true
  end.

(** [a || b] of the script, with the right operand already a value (it is a
    template of a status code, and cannot throw). *)
Definition or_else (a b : jsval) : jsval := if ToBoolean a then a else b.

(** [ToString]: what a template literal and [new Error(...)] apply.  A
    parsed object prints as [[object Object]] through the inherited
    [toString]; an own property of that name hides it with a value that is
    not callable, [valueOf] returns the object itself, and the conversion
    throws.  An array joins its elements with commas, [null] elements
    printing as nothing. *)
Fixpoint ToString (v : jsval) : result jsstring :=
  match v with
  | undefined => Ok (lit "undefined")
  | null => Ok (lit "null")
  | boolean true => Ok (lit "true")
  | boolean false => Ok (lit "false")
  | number t => Ok t
  | str s => Ok s
  | array items =>
      (fix join (l : list jsval) : result jsstring :=
         match l with
         | [] => Ok []
         | x :: rest =>
             sx ← match x with
                  | undefined | null => Ok []
                  | _ => ToString x
                  end;
             match rest with
             | [] => Ok sx
             | _ :: _ => sr ← join rest; Ok (sx ++ lit "," ++ sr)
             end
         end) items
  | object props =>
      match own (lit "toString") props with
      | Some _ => Throw (TypeError no_primitive)
      | None => Ok (lit "[object Object]")
      end
  end.

(** The conversion the [textContent] setter applies (a nullable DOMString):
    [null] and [undefined] empty the element, anything else is printed. *)
Definition DOMString (v : jsval) : result jsstring :=
  match v with
  | undefined | null => Ok []
  | _ => ToString v
  end.

Definition finite (t : jsstring) : bool :=
  negb (bool_decide (t = lit "Infinity") || bool_decide (t = lit "-Infinity")
        || bool_decide (t = lit "NaN")).

(** [JSON.stringify], up to the text's layout: the result is the JSON value
    the text denotes, [None] where [JSON.stringify] returns [undefined].
    An [undefined] property is left out, an [undefined] array element and a
    number that is not finite become [null]. *)
Fixpoint JSON_stringify (v : jsval) : option jsval :=
  match v with
  | undefined => None
  | null => Some null
  | boolean b => Some (boolean b)
  | number t => Some (if finite t then number t else null)
  | str s => Some (str s)
  | array items =>
      Some (array ((fix elements (l : list jsval) : list jsval :=
                      match l with
                      | [] => []
                      | x :: rest => default null (JSON_stringify x) :: elements rest
                      end) items))
  | object props =>
      Some (object ((fix members (l : list (jsstring * jsval)) :=
                       match l with
                       | [] => []
                       | (k, x) :: rest =>
                           match JSON_stringify x with
                           | Some j => (k, j) :: members rest
                           | None => members rest
                           end
                       end) props))
  end.

(** A value that a JSON text denotes as it is: nothing [undefined] in it,
    and every number finite. *)
Fixpoint is_json (v : jsval) : bool :=
  match v with
  | undefined => false
  | null | boolean _ | str _ => true
  | number t => finite t
  | array items => forallb is_json items
  | object props => forallb (fun kv => is_json kv.2) props
  end.

(** ** The page, the network and the suspended invocations *)

Inductive sender := user | bot.

#[global] Instance sender_eq_dec : EqDecision sender.
Proof. solve_decision. Defined.

(** A [div] of the chat box: classes [message] and [<sender>-message], and
    its text.  [node_id] is the identity of the element, which
    [chatBox.contains] and [chatBox.removeChild] go by. *)
Record node := Node {
  node_id : nat;
  node_sender : sender;
  node_text : jsstring;
}.

Record File := {
  file_name : jsstring;
  file_bytes : list N;
}.

Inductive body :=
| no_body
| json_body (denotes : jsval)
| form_body (fields : list (jsstring * File)).

Record request := Request {
  url : jsstring;
  method : jsstring;
  headers : list (jsstring * jsstring);
  request_body : body;
}.

Inductive level := log | error_level.

(** What [fetch] and [response.json()] settle to.  A response is known to
    the script by its status only, until its body is read. *)
Inductive fetch_result :=
| fetch_rejected (e : error)
| fetch_response (status : N).

Inductive json_result :=
| json_rejected (e : error)
| json_value (v : jsval).

(** [response.ok] *)
Definition ok (status : N) : bool := (200 <=? status) && (status <=? 299).

(** An invocation of [sendMessage] or [uploadFile] waiting at an [await],
    with the local variables the rest of the function reads. *)
Inductive task :=
| sendMessage_await_fetch (loadingMessageDiv : nat)
| sendMessage_await_errorData (loadingMessageDiv : nat) (status : N)
| sendMessage_await_data (loadingMessageDiv : nat)
| uploadFile_await_fetch
| uploadFile_await_errorData (status : N)
| uploadFile_await_data.

Record state := State {
  chatBox : list node;                 (* the children of #chat-box, in order *)
  next_node : nat;                     (* identity of the next created element *)
  userInput_value : jsstring;          (* #user-input *)
  csvFileInput_files : list File;      (* #csvFileInput *)
  uploadStatus_textContent : jsstring; (* #uploadStatus *)
  uploadStatus_className : jsstring;
  lastUploadedFileName : jsval;
  timers : list N;                     (* due times of the pending timeouts, oldest first *)
  clock : N;                           (* milliseconds *)
  network : list request;              (* the requests issued, oldest first *)
  console : list (level * jsstring);   (* each entry by its level and label *)
  tasks : gmap nat task;               (* the invocations waiting at an await *)
  next_task : nat;
}.

Definition with_chatBox (f : list node -> list node) (st : state) : state :=
  State (f (chatBox st)) (next_node st) (userInput_value st) (csvFileInput_files st)
        (uploadStatus_textContent st) (uploadStatus_className st)
        (lastUploadedFileName st) (timers st) (clock st) (network st) (console st)
        (tasks st) (next_task st).

Definition with_userInput_value (s : jsstring) (st : state) : state :=
  State (chatBox st) (next_node st) s (csvFileInput_files st)
        (uploadStatus_textContent st) (uploadStatus_className st)
        (lastUploadedFileName st) (timers st) (clock st) (network st) (console st)
        (tasks st) (next_task st).

Definition with_csvFileInput_files (fs : list File) (st : state) : state :=
  State (chatBox st) (next_node st) (userInput_value st) fs
        (uploadStatus_textContent st) (uploadStatus_className st)
        (lastUploadedFileName st) (timers st) (clock st) (network st) (console st)
        (tasks st) (next_task st).

Definition with_uploadStatus (text class : jsstring) (st : state) : state :=
  State (chatBox st) (next_node st) (userInput_value st) (csvFileInput_files st)
        text class
        (lastUploadedFileName st) (timers st) (clock st) (network st) (console st)
        (tasks st) (next_task st).

Definition with_lastUploadedFileName (v : jsval) (st : state) : state :=
  State (chatBox st) (next_node st) (userInput_value st) (csvFileInput_files st)
        (uploadStatus_textContent st) (uploadStatus_className st)
        v (timers st) (clock st) (network st) (console st)
        (tasks st) (next_task st).

Definition with_timers (f : list N -> list N) (st : state) : state :=
  State (chatBox st) (next_node st) (userInput_value st) (csvFileInput_files st)
        (uploadStatus_textContent st) (uploadStatus_className st)
        (lastUploadedFileName st) (f (timers st)) (clock st) (network st) (console st)
        (tasks st) (next_task st).

Definition with_clock (t : N) (st : state) : state :=
  State (chatBox st) (next_node st) (userInput_value st) (csvFileInput_files st)
        (uploadStatus_textContent st) (uploadStatus_className st)
        (lastUploadedFileName st) (timers st) t (network st) (console st)
        (tasks st) (next_task st).

Definition with_tasks (f : gmap nat task -> gmap nat task) (st : state) : state :=
  State (chatBox st) (next_node st) (userInput_value st) (csvFileInput_files st)
        (uploadStatus_textContent st) (uploadStatus_className st)
        (lastUploadedFileName st) (timers st) (clock st) (network st) (console st)
        (f (tasks st)) (next_task st).

(** [document.createElement('div')]: the new element's identity. *)
Definition createElement (st : state) : nat * state :=
  (next_node st,
   State (chatBox st) (S (next_node st)) (userInput_value st) (csvFileInput_files st)
         (uploadStatus_textContent st) (uploadStatus_className st)
         (lastUploadedFileName st) (timers st) (clock st) (network st) (console st)
         (tasks st) (next_task st)).

Definition appendChild (n : node) (st : state) : state :=
  with_chatBox (fun children => children ++ [n]) st.

Definition contains (st : state) (id : nat) : bool :=
  bool_decide (id ∈ node_id <$> chatBox st).

Fixpoint remove_node (id : nat) (children : list node) : list node :=
  match children with
  | [] => []
  | n :: rest => if decide (node_id n = id) then rest else n :: remove_node id rest
  end.

Definition removeChild (id : nat) (st : state) : state :=
  with_chatBox (remove_node id) st.

(** [setTimeout(callback, delay)]; the script's only callback clears the
    upload status, so a pending timer is its due time. *)
Definition setTimeout (delay : N) (st : state) : state :=
  with_timers (fun ts => ts ++ [clock st + delay]) st.

(** [fetch(...)]: the request leaves; the caller then waits for it. *)
Definition fetch (r : request) (st : state) : state :=
  State (chatBox st) (next_node st) (userInput_value st) (csvFileInput_files st)
        (uploadStatus_textContent st) (uploadStatus_className st)
        (lastUploadedFileName st) (timers st) (clock st) (network st ++ [r]) (console st)
        (tasks st) (next_task st).

Definition console_write (l : level) (label : jsstring) (st : state) : state :=
  State (chatBox st) (next_node st) (userInput_value st) (csvFileInput_files st)
        (uploadStatus_textContent st) (uploadStatus_className st)
        (lastUploadedFileName st) (timers st) (clock st) (network st)
        (console st ++ [(l, label)])
        (tasks st) (next_task st).

(** The invocation stops at an [await]: it is kept as a task of its own. *)
Definition suspend (t : task) (st : state) : state :=
  State (chatBox st) (next_node st) (userInput_value st) (csvFileInput_files st)
        (uploadStatus_textContent st) (uploadStatus_className st)
        (lastUploadedFileName st) (timers st) (clock st) (network st) (console st)
        (<[next_task st := t]> (tasks st)) (S (next_task st)).

(** ** The script *)

(** [addMessage(message, sender)], lines 12-18, for a [message] that is a
    string.  (The one call that may pass another value, line 74, converts
    it first, as the [textContent] setter would: the element is not in the
    page before the setter has run.)  The scroll position of the chat box
    is not part of the state. *)
Definition addMessage (message : jsstring) (sender : sender) (st : state) : state :=
  let '(messageDiv, st) := createElement st in
  appendChild (Node messageDiv sender message) st.

(** [setUploadStatus(message, type)], lines 21-28, for a [message] that is
    a string (line 111 converts first, as the setter on line 22 would). *)
Definition setUploadStatus (message type : jsstring) (st : state) : state :=
  let st := with_uploadStatus message (lit "status-message " ++ type) st in
  setTimeout 5000 st.

(** The callback of that timeout, lines 25-26. *)
Definition clearUploadStatus (st : state) : state :=
  with_uploadStatus [] (lit "status-message") st.

Definition typing : jsstring := lit "...typing...".

Definition connectivity_failure : jsstring :=
  lit "Oops! Could not connect to the chatbot server. Please check if the backend is running.".

Definition chat_request (message : jsstring) (last_uploaded_file : jsval) : request :=
  Request (lit "http://127.0.0.1:5000/chat") (lit "POST")
          [(lit "Content-Type", lit "application/json")]
          (match JSON_stringify (object [(lit "message", str message);
                                         (lit "last_uploaded_file", last_uploaded_file)]) with
           | Some j => json_body j
           | None => no_body
           end).

Definition upload_request (file : File) : request :=
  Request (lit "http://127.0.0.1:5000/upload") (lit "POST") []
          (form_body [(lit "file", file)]).

(** [sendMessage], lines 32-58: up to the [await] of [fetch]. *)
Definition sendMessage (st : state) : state :=
  let message := trim (userInput_value st) in
  if decide (message = []) then st else
  let st := addMessage message user st in
  let st := with_userInput_value [] st in
  let '(loadingMessageDiv, st) := createElement st in
  let st := appendChild (Node loadingMessageDiv bot typing) st in
  let st := fetch (chat_request message (lastUploadedFileName st)) st in
  suspend (sendMessage_await_fetch loadingMessageDiv) st.

(** Lines 61-63 and 77-79. *)
Definition remove_loading (loadingMessageDiv : nat) (st : state) : state :=
  if contains st loadingMessageDiv then removeChild loadingMessageDiv st else st.

(** The [catch] block of [sendMessage], lines 75-82. *)
Definition sendMessage_catch (loadingMessageDiv : nat) (e : error) (st : state) : state :=
  let st := remove_loading loadingMessageDiv st in
  let st := console_write error_level (lit "Network or parsing error:") st in
  addMessage connectivity_failure bot st.

Definition http_error (status : N) : jsval :=
  str (lit "HTTP error! status: " ++ decimal status).

(** Lines 60-66 and 73: [fetch] has settled. *)
Definition sendMessage_fetched (loadingMessageDiv : nat) (r : fetch_result)
    (st : state) : state :=
  match r with
  | fetch_rejected e => sendMessage_catch loadingMessageDiv e st
  | fetch_response status =>
      let st := remove_loading loadingMessageDiv st in
      if negb (ok status)
      then suspend (sendMessage_await_errorData loadingMessageDiv status) st
      else suspend (sendMessage_await_data loadingMessageDiv) st
  end.

(** [response.json().catch(() => ({}))] *)
Definition or_empty_object (r : json_result) : jsval :=
  match r with
  | json_rejected _ => object []
  | json_value v => v
  end.

(** Lines 66-70: the body of a response that is not ok has been read. *)
Definition sendMessage_errorData (loadingMessageDiv : nat) (status : N)
    (r : json_result) (st : state) : state :=
  let errorData := or_empty_object r in
  match Get errorData (lit "response") with
  | Throw e => sendMessage_catch loadingMessageDiv e st
  | Ok response =>
      let errorMessage := or_else response (http_error status) in
      let st := console_write error_level (lit "Backend responded with an error:") st in
      match ToString errorMessage with
      | Throw e => sendMessage_catch loadingMessageDiv e st
      | Ok text => addMessage (lit "Bot Error: " ++ text) bot st
      end
  end.

(** Lines 73-74: the body of an ok response has been read. *)
Definition sendMessage_data (loadingMessageDiv : nat) (r : json_result)
    (st : state) : state :=
  match r with
  | json_rejected e => sendMessage_catch loadingMessageDiv e st
  | json_value data =>
      match response ← Get data (lit "response"); DOMString response with
      | Throw e => sendMessage_catch loadingMessageDiv e st
      | Ok text => addMessage text bot st
      end
  end.

Definition quote : jsstring := [34].

Definition upload_confirmation (filename : jsstring) : jsstring :=
  lit "File " ++ quote ++ filename ++ quote
  ++ lit " uploaded successfully to 'mangodata' folder. You can now refer to it in your queries.".

Definition greeting : jsstring :=
  lit "Hello! I'm your AI Chatbot. You can upload a file or ask me to generate a dashboard template or summarize a data file.".

(** ** Events *)

(** What the event loop hands to the script, one at a time: the user edits
    the text field or the file selection, clicks a button or presses a
    key in the text field; the promise that the waiting invocation [k]
    awaits settles; the oldest pending timer fires; time passes.  Between
    two events of one invocation any other events may come. *)
Inductive event :=
| user_types (value : jsstring)
| user_selects (files : list File)
| click_sendButton
| keypress_userInput (key : jsstring)
| click_uploadButton
| fetch_settles (k : nat) (r : fetch_result)
| json_settles (k : nat) (r : json_result)
| timer_fires
| time_passes (ms : N).

(** ** The invariant of the page *)

Definition ids (st : state) : list nat := node_id <$> chatBox st.

Definition user_messages (st : state) : list node :=
  filter (fun n => node_sender n = user) (chatBox st).

(** What a waiting invocation of [sendMessage] may rely on: its
    placeholder is an element created earlier, and once [fetch] has
    answered (lines 61-63 have run) it is no longer in the chat box. *)
Definition task_ok (st : state) (t : task) : Prop :=
  match t with
  | sendMessage_await_fetch div => (div < next_node st)%nat
  | sendMessage_await_errorData div _
  | sendMessage_await_data div => (div < next_node st)%nat /\ div ∉ ids st
  | uploadFile_await_fetch | uploadFile_await_errorData _ | uploadFile_await_data => True
  end.

Definition wf (st : state) : Prop :=
  NoDup (ids st)
  /\ Forall (fun i => (i < next_node st)%nat) (ids st)
  /\ forall k t, tasks st !! k = Some t -> task_ok st t.

(** The keys of the waiting invocations were all handed out already. *)
Definition fresh_keys (st : state) : Prop :=
  forall k t, tasks st !! k = Some t -> (k < next_task st)%nat.

(** From [st] to [st'], the chat box has only lost elements or gained
    newly created ones. *)
Definition grows (st st' : state) : Prop :=
  (next_node st <= next_node st')%nat
  /\ forall x, x ∈ ids st' -> x ∈ ids st \/ (next_node st <= x)%nat.

(** What the upload side of the page shows and keeps. *)
Definition upload_side (st : state) : jsstring * jsstring * list N * list File * jsval :=
  (uploadStatus_textContent st, uploadStatus_className st, timers st,
   csvFileInput_files st, lastUploadedFileName st).

(** A status on display has a timer pending that will clear it. *)
Definition status_has_timer (st : state) : Prop :=
  uploadStatus_textContent st = [] \/ timers st <> [].

(** A typing placeholder, by its looks. *)
Definition is_placeholder (n : node) : Prop :=
  node_sender n = bot /\ node_text n = typing.

#[global] Instance is_placeholder_dec (n : node) : Decision (is_placeholder n).
Proof. unfold is_placeholder. apply _. Defined.

(** The transcript: the chat box without the typing placeholders. *)
Definition transcript (st : state) : list node :=
  filter (fun n => ~ is_placeholder n) (chatBox st).

(** Every [sendMessage] that waits for [fetch] shows its placeholder, and
    no two of them share one. *)
Definition placeholders_shown (st : state) : Prop :=
  (forall k d, tasks st !! k = Some (sendMessage_await_fetch d) ->
               Node d bot typing ∈ chatBox st)
  /\ (forall k1 k2 d,
        tasks st !! k1 = Some (sendMessage_await_fetch d) ->
        tasks st !! k2 = Some (sendMessage_await_fetch d) -> k1 = k2).

(** From [st] to [st'], every invocation that waited still waits, as it
    was. *)
Definition still_waiting (st st' : state) : Prop :=
  (next_task st <= next_task st')%nat
  /\ forall k t, (k < next_task st)%nat ->
                 tasks st !! k = Some t -> tasks st' !! k = Some t.

(** An invocation of [sendMessage]. *)
Definition chat_task (t : task) : Prop :=
  match t with
  | sendMessage_await_fetch _ | sendMessage_await_errorData _ _
  | sendMessage_await_data _ => True
  | uploadFile_await_fetch | uploadFile_await_errorData _ | uploadFile_await_data => False
  end.

(** No upload is under way, and none has left a file name behind. *)
Definition no_upload_yet (st : state) : Prop :=
  lastUploadedFileName st = null
  /\ forall k t, tasks st !! k = Some t -> chat_task t.

(** How the engine words the message of the [TypeError]s it raises: the
    language leaves it open, and [uploadFile] shows it to the user. *)
Class Engine := wording : type_error -> jsstring.

(** The wording of V8 (Chrome, Node), for the examples. *)
Definition V8 : Engine := fun why =>
  match why with
  | reads_null p => lit "Cannot read properties of null (reading '" ++ p ++ lit "')"
  | no_primitive => lit "Cannot convert object to primitive value"
  end.

Section Client.

Context {engine : Engine}.

(** [error.message] *)
Definition error_message (e : error) : jsstring :=
  match e with
  | Error m => m
  | TypeError why => wording why
  end.

(** [uploadFile], lines 87-102: up to the [await] of [fetch]. *)
Definition uploadFile (st : state) : state :=
  match csvFileInput_files st with
  | [] => setUploadStatus (lit "Please select a file first.") (lit "error") st
  | file :: _ =>
      let st := setUploadStatus (lit "Uploading...") (lit "info") st in
      let st := fetch (upload_request file) st in
      suspend uploadFile_await_fetch st
  end.

(** The [catch] block of [uploadFile], lines 115-118. *)
Definition uploadFile_catch (e : error) (st : state) : state :=
  let st := setUploadStatus (lit "Upload failed: " ++ error_message e) (lit "error") st in
  console_write error_level (lit "Upload error:") st.

(** Lines 99-105 and 110: [fetch] has settled. *)
Definition uploadFile_fetched (r : fetch_result) (st : state) : state :=
  match r with
  | fetch_rejected e => uploadFile_catch e st
  | fetch_response status =>
      if negb (ok status)
      then suspend (uploadFile_await_errorData status) st
      else suspend uploadFile_await_data st
  end.

(** Lines 105-107: the body of a response that is not ok has been read;
    what is thrown is [new Error(errorMessage)], unless computing it threw
    already. *)
Definition uploadFile_errorData (status : N) (r : json_result) (st : state) : state :=
  let errorData := or_empty_object r in
  let thrown :=
    match Get errorData (lit "message") with
    | Throw e => e
    | Ok message =>
        let errorMessage := or_else message (http_error status) in
        match ToString errorMessage with
        | Throw e => e
        | Ok text => Error text
        end
    end in
  uploadFile_catch thrown st.

(** Lines 110-114: the body of an ok response has been read. *)
Definition uploadFile_data (r : json_result) (st : state) : state :=
  match r with
  | json_rejected e => uploadFile_catch e st
  | json_value data =>
      match message ← Get data (lit "message"); DOMString message with
      | Throw e => uploadFile_catch e st
      | Ok text =>
          let st := setUploadStatus text (lit "success") st in
          match Get data (lit "filename") with
          | Throw e => uploadFile_catch e st
          | Ok filename =>
              let st := with_lastUploadedFileName filename st in
              match ToString filename with
              | Throw e => uploadFile_catch e st
              | Ok name =>
                  let st := addMessage (upload_confirmation name) bot st in
                  console_write log (lit "File uploaded:") st
              end
          end
      end
  end.

(** Lines 1-9 and 121-130: the handlers are registered on a page whose
    markup is not part of the sources, and the greeting is shown. *)
Definition DOMContentLoaded (page : state) : state :=
  addMessage greeting bot (with_lastUploadedFileName null page).

Definition resume_fetch (t : task) (r : fetch_result) (st : state) : option state :=
  match t with
  | sendMessage_await_fetch div => Some (sendMessage_fetched div r st)
  | uploadFile_await_fetch => Some (uploadFile_fetched r st)
  | _ => None
  end.

Definition resume_json (t : task) (r : json_result) (st : state) : option state :=
  match t with
  | sendMessage_await_errorData div status => Some (sendMessage_errorData div status r st)
  | sendMessage_await_data div => Some (sendMessage_data div r st)
  | uploadFile_await_errorData status => Some (uploadFile_errorData status r st)
  | uploadFile_await_data => Some (uploadFile_data r st)
  | _ => None
  end.

(** One turn of the event loop; [None] when the event cannot happen in
    this state (no such task waits, no timer is due).  All timers have the
    same delay, so they are due, and fire, in the order they were set; a
    timer never fires before it is due. *)
Definition step (e : event) (st : state) : option state :=
  match e with
  | user_types value => Some (with_userInput_value value st)
  | user_selects files => Some (with_csvFileInput_files files st)
  | click_sendButton => Some (sendMessage st)
  | keypress_userInput key =>
      Some (if decide (key = lit "Enter") then sendMessage st else st)
  | click_uploadButton => Some (uploadFile st)
  | fetch_settles k r =>
      t ← tasks st !! k; resume_fetch t r (with_tasks (delete k) st)
  | json_settles k r =>
      t ← tasks st !! k; resume_json t r (with_tasks (delete k) st)
  | timer_fires =>
      match timers st with
      | due :: rest =>
          if due <=? clock st
          then Some (clearUploadStatus (with_timers (fun _ => rest) st))
          else None
      | [] => None
      end
  | time_passes ms => Some (with_clock (clock st + ms) st)
  end.

Fixpoint run (es : list event) (st : state) : option state :=
  match es with
  | [] => Some st
  | e :: es' => st' ← step e st; run es' st'
  end.

(** A page as the browser hands it to the script: nothing waits, nothing
    was sent, and the elements of the chat box are distinct. *)
Definition fresh_page (page : state) : Prop :=
  NoDup (node_id <$> chatBox page)
  /\ Forall (fun n => (node_id n < next_node page)%nat) (chatBox page)
  /\ tasks page = ∅ /\ timers page = [] /\ network page = [] /\ console page = [].

Definition blank : state :=
  State [] 0 [] [] [] (lit "status-message") null [] 0 [] [] ∅ 0.

Inductive reachable : state -> Prop :=
| reachable_loaded page :
    fresh_page page -> reachable (DOMContentLoaded page)
| reachable_step st e st' :
    reachable st -> step e st = Some st' -> reachable st'.

(** Whatever happens later, the element [d] is not in the chat box. *)
Definition stays_out (d : nat) (st : state) : Prop :=
  forall es st', run es st = Some st' -> d ∉ ids st'.

End Client.

(** ** The script at work *)

Definition loaded : state := DOMContentLoaded blank.

(** The page after a run of events from the freshly loaded, blank page. *)
Definition after (es : list event) : state := default blank (run (engine := V8) es loaded).

Definition a_csv : File := {| file_name := lit "a.csv"; file_bytes := [105; 100; 10; 49; 10] |}.

Definition upload_reply (filename message : jsstring) : jsval :=
  object [(lit "filename", str filename); (lit "message", str message)].

Definition chat_reply (response : jsval) : jsval :=
  object [(lit "response", response)].

Definition failed_to_fetch : error := Error (lit "Failed to fetch").

(** The user types a message and sends it: invocation 0 waits for [fetch];
    the greeting is element 0, the message 1, the placeholder 2. *)
Definition asking : list event := [user_types (lit "  hi "); click_sendButton].

(** ... then the server answers: invocation 1 waits for the body. *)
Definition answered (status : N) : list event :=
  asking ++ [fetch_settles 0 (fetch_response status)].

(** The user picks a file and uploads it; the server takes a second to say
    that all is well: invocation 1 waits for the body. *)
Definition uploading : list event :=
  [user_selects [a_csv]; click_uploadButton; time_passes 1000;
   fetch_settles 0 (fetch_response 200)].

Definition uploaded : list event :=
  uploading ++ [json_settles 1 (json_value (upload_reply (lit "a.csv") (lit "ok")))].

(** ... and a second upload, which invocation 3 waits to read the body of. *)
Definition uploading_again : list event :=
  uploaded ++ [click_uploadButton; fetch_settles 2 (fetch_response 200)].

(** The user picks a file, and no more. *)
Definition selecting : list event := [user_selects [a_csv]].

(** An upload the server refuses with status 400: invocation 1 waits for
    the body. *)
Definition refused : list event :=
  [user_selects [a_csv]; click_uploadButton; fetch_settles 0 (fetch_response 400)].

(** Two uploads started one after the other, both answered ok:
    invocation 2 waits for the body of the first, invocation 3 for the
    body of the second. *)
Definition two_uploads : list event :=
  [user_selects [a_csv]; click_uploadButton; click_uploadButton;
   fetch_settles 0 (fetch_response 200); fetch_settles 1 (fetch_response 200)].

(** An upload the server acknowledges with the empty object [{}]. *)
Definition uploaded_unnamed : list event :=
  uploading ++ [json_settles 1 (json_value (object []))].

(** A body whose [filename] does not print: an object with a property
    [toString] of its own, which is not callable. *)
Definition unprintable : jsval := object [(lit "toString", number (lit "1"))].

Definition unprintable_reply : jsval :=
  object [(lit "filename", unprintable); (lit "message", str (lit "ok"))].

Section Properties.

Context {engine : Engine}.

(** ** Lemmas on the chat box *)

Lemma remove_node_absent (d : nat) (l : list node) :
  d ∉ node_id <$> l -> remove_node d l = l.
Proof.
  induction l as [|n l IH]; simpl; [done|].
  intros H. apply not_elem_of_cons in H as [Hne Hl].
  destruct (decide (node_id n = d)); [congruence|].
  by rewrite IH.
Qed.

Lemma remove_node_subset (d x : nat) (l : list node) :
  x ∈ node_id <$> remove_node d l -> x ∈ node_id <$> l.
Proof.
  induction l as [|n l IH]; simpl; [done|].
  destruct (decide (node_id n = d)); simpl.
  - intros. by apply elem_of_cons; right.
  - rewrite !elem_of_cons. intros [->|H]; auto.
Qed.

Lemma remove_node_NoDup (d : nat) (l : list node) :
  NoDup (node_id <$> l) -> NoDup (node_id <$> remove_node d l).
Proof.
  induction l as [|n l IH]; simpl; [done|].
  rewrite NoDup_cons. intros [Hn Hl].
  destruct (decide (node_id n = d)); simpl; [done|].
  apply NoDup_cons. split; [|auto].
  intros H. by apply Hn, (remove_node_subset d).
Qed.

Lemma remove_node_gone (d : nat) (l : list node) :
  NoDup (node_id <$> l) -> d ∉ node_id <$> remove_node d l.
Proof.
  induction l as [|n l IH]; simpl.
  - intros _. apply not_elem_of_nil.
  - rewrite NoDup_cons. intros [Hn Hl].
    destruct (decide (node_id n = d)) as [<-|Hne]; simpl; [done|].
    apply not_elem_of_cons. split; [congruence|auto].
Qed.

Lemma remove_loading_chatBox (d : nat) (st : state) :
  chatBox (remove_loading d st) = remove_node d (chatBox st).
Proof.
  unfold remove_loading, contains.
  case_bool_decide as H; simpl; [done|].
  symmetry. by apply remove_node_absent.
Qed.

Lemma remove_loading_absent (d : nat) (st : state) :
  d ∉ ids st -> remove_loading d st = st.
Proof.
  unfold remove_loading, contains, ids. intros H.
  by rewrite bool_decide_eq_false_2.
Qed.

Lemma remove_loading_gone (d : nat) (st : state) :
  NoDup (ids st) -> d ∉ ids (remove_loading d st).
Proof.
  unfold ids. rewrite remove_loading_chatBox. apply remove_node_gone.
Qed.

(** ** The invariant holds in every reachable state *)

Lemma wf_same (st st' : state) :
  chatBox st' = chatBox st -> next_node st' = next_node st ->
  tasks st' = tasks st -> wf st -> wf st'.
Proof.
  unfold wf, task_ok, ids. intros -> -> ->. done.
Qed.

Lemma task_ok_grow (st st' : state) (t : task) :
  (next_node st <= next_node st')%nat ->
  (forall d, (d < next_node st)%nat -> d ∉ ids st -> d ∉ ids st') ->
  task_ok st t -> task_ok st' t.
Proof.
  intros Hle Hkeep. destruct t; simpl; try done.
  - lia.
  - intros [? ?]. split; [lia|auto].
  - intros [? ?]. split; [lia|auto].
Qed.

Lemma wf_addMessage (message : jsstring) (s : sender) (st : state) :
  wf st -> wf (addMessage message s st).
Proof.
  intros (Hnd & Hlt & Htasks). unfold wf, ids in *. simpl.
  rewrite fmap_app. simpl. split_and!.
  - apply NoDup_app. split_and!; [done| |apply NoDup_singleton].
    intros x Hx. rewrite list_elem_of_singleton. intros ->.
    rewrite Forall_forall in Hlt. apply Hlt in Hx. lia.
  - apply Forall_app. split.
    + eapply Forall_impl; [exact Hlt|]. simpl. lia.
    + apply Forall_singleton. lia.
  - intros k t Hk. apply Htasks in Hk. revert Hk.
    apply task_ok_grow; simpl; [lia|].
    intros d Hd Hnot. unfold ids. simpl. rewrite fmap_app. simpl.
    rewrite elem_of_app, list_elem_of_singleton. intros [?| ->]; [done|lia].
Qed.

Lemma wf_remove_loading (d : nat) (st : state) :
  wf st -> wf (remove_loading d st).
Proof.
  intros (Hnd & Hlt & Htasks). unfold wf, ids in *.
  rewrite remove_loading_chatBox.
  assert (Hn : next_node (remove_loading d st) = next_node st).
  { unfold remove_loading. by destruct (contains st d). }
  assert (Ht : tasks (remove_loading d st) = tasks st).
  { unfold remove_loading. by destruct (contains st d). }
  rewrite Hn, Ht. split_and!.
  - by apply remove_node_NoDup.
  - rewrite Forall_forall in Hlt |- *. intros x Hx.
    apply Hlt. by apply (remove_node_subset d).
  - intros k t Hk. apply Htasks in Hk. revert Hk.
    apply task_ok_grow; [lia|].
    intros x _ Hx. unfold ids. rewrite remove_loading_chatBox.
    intros H. by apply Hx, (remove_node_subset d).
Qed.

Lemma wf_suspend (t : task) (st : state) :
  wf st -> task_ok st t -> wf (suspend t st).
Proof.
  intros (Hnd & Hlt & Htasks) Ht. unfold wf. split_and!; [done..|].
  intros k t'. simpl. rewrite lookup_insert.
  case_decide; [intros [= <-]; exact Ht|apply Htasks].
Qed.

Lemma wf_delete (k : nat) (st : state) :
  wf st -> wf (with_tasks (delete k) st).
Proof.
  intros (Hnd & Hlt & Htasks). unfold wf. split_and!; [done..|].
  intros k' t. simpl. intros [_ H]%lookup_delete_Some. by apply Htasks in H.
Qed.

Lemma wf_sendMessage_catch (d : nat) (e : error) (st : state) :
  wf st -> wf (sendMessage_catch d e st).
Proof.
  intros H. unfold sendMessage_catch. apply wf_addMessage.
  eapply wf_same; [..|apply (wf_remove_loading d), H]; done.
Qed.

Lemma wf_sendMessage (st : state) : wf st -> wf (sendMessage st).
Proof.
  intros H. unfold sendMessage. case_decide; [done|].
  set (st1 := addMessage _ user st).
  assert (H1 : wf st1) by by apply wf_addMessage.
  assert (H2 : wf (addMessage typing bot (with_userInput_value [] st1))).
  { apply wf_addMessage. eapply wf_same; [..|exact H1]; done. }
  simpl. apply wf_suspend.
  - eapply wf_same; [..|exact H2]; done.
  - simpl. lia.
Qed.

Lemma wf_setUploadStatus (message type : jsstring) (st : state) :
  wf st -> wf (setUploadStatus message type st).
Proof. apply wf_same; done. Qed.

Lemma wf_uploadFile_catch (e : error) (st : state) :
  wf st -> wf (uploadFile_catch e st).
Proof. apply wf_same; done. Qed.

Lemma wf_sendMessage_fetched (d : nat) (r : fetch_result) (st : state) :
  wf st -> (d < next_node st)%nat -> wf (sendMessage_fetched d r st).
Proof.
  intros H Hd. destruct r as [e|status]; simpl.
  - by apply wf_sendMessage_catch.
  - assert (Hr : wf (remove_loading d st)) by by apply wf_remove_loading.
    assert (Hn : next_node (remove_loading d st) = next_node st).
    { unfold remove_loading. by destruct (contains st d). }
    assert (Hg : d ∉ ids (remove_loading d st)).
    { apply remove_loading_gone, H. }
    destruct (negb (ok status)); apply wf_suspend; try done; simpl; rewrite Hn; done.
Qed.

Lemma wf_sendMessage_errorData (d : nat) (status : N) (r : json_result) (st : state) :
  wf st -> wf (sendMessage_errorData d status r st).
Proof.
  intros H. unfold sendMessage_errorData.
  destruct (Get _ _); [|by apply wf_sendMessage_catch].
  destruct (ToString _).
  - apply wf_addMessage. eapply wf_same; [..|exact H]; done.
  - apply wf_sendMessage_catch. eapply wf_same; [..|exact H]; done.
Qed.

Lemma wf_sendMessage_data (d : nat) (r : json_result) (st : state) :
  wf st -> wf (sendMessage_data d r st).
Proof.
  intros H. destruct r as [e|data]; simpl; [by apply wf_sendMessage_catch|].
  destruct (_ ≫= _); [by apply wf_addMessage|by apply wf_sendMessage_catch].
Qed.

Lemma wf_uploadFile (st : state) : wf st -> wf (uploadFile st).
Proof.
  intros H. unfold uploadFile. destruct (csvFileInput_files st).
  - by apply wf_setUploadStatus.
  - apply wf_suspend; [|done]. eapply wf_same; [..|exact H]; done.
Qed.

Lemma wf_uploadFile_fetched (r : fetch_result) (st : state) :
  wf st -> wf (uploadFile_fetched r st).
Proof.
  intros H. destruct r as [e|status]; simpl; [by apply wf_uploadFile_catch|].
  destruct (negb (ok status)); by apply wf_suspend.
Qed.

Lemma wf_uploadFile_data (r : json_result) (st : state) :
  wf st -> wf (uploadFile_data r st).
Proof.
  intros H. destruct r as [e|data]; simpl; [by apply wf_uploadFile_catch|].
  destruct (_ ≫= _); [|by apply wf_uploadFile_catch].
  destruct (Get _ _).
  - destruct (ToString _).
    + eapply wf_same; [| | |eapply (wf_addMessage _ bot), wf_same, H]; done.
    + apply wf_uploadFile_catch. eapply wf_same; [..|exact H]; done.
  - apply wf_uploadFile_catch. eapply wf_same; [..|exact H]; done.
Qed.

Lemma wf_step (e : event) (st st' : state) :
  wf st -> step e st = Some st' -> wf st'.
Proof.
  intros H. destruct e; simpl.
  - intros [= <-]. eapply wf_same; [..|exact H]; done.
  - intros [= <-]. eapply wf_same; [..|exact H]; done.
  - intros [= <-]. by apply wf_sendMessage.
  - intros [= <-]. case_decide; [by apply wf_sendMessage|done].
  - intros [= <-]. by apply wf_uploadFile.
  - destruct (tasks st !! k) as [t|] eqn:Hk; simpl; [|done].
    pose proof (proj2 (proj2 H) k t Hk) as Ht.
    destruct t; simpl; try done; intros [= <-].
    + apply wf_sendMessage_fetched; [by apply wf_delete|done].
    + by apply wf_uploadFile_fetched, wf_delete.
  - destruct (tasks st !! k) as [t|] eqn:Hk; simpl; [|done].
    destruct t; simpl; try done; intros [= <-].
    + by apply wf_sendMessage_errorData, wf_delete.
    + by apply wf_sendMessage_data, wf_delete.
    + by apply wf_uploadFile_catch, wf_delete.
    + by apply wf_uploadFile_data, wf_delete.
  - destruct (timers st) as [|due rest]; [done|].
    destruct (due <=? clock st); [|done].
    intros [= <-]. eapply wf_same; [..|exact H]; done.
  - intros [= <-]. eapply wf_same; [..|exact H]; done.
Qed.

Lemma wf_DOMContentLoaded (page : state) :
  fresh_page page -> wf (DOMContentLoaded page).
Proof.
  intros (Hnd & Hlt & Ht & _). apply wf_addMessage.
  unfold wf, ids. simpl. split_and!; [done| |].
  - rewrite Forall_fmap. exact Hlt.
  - intros k t. rewrite Ht. by rewrite lookup_empty.
Qed.

Lemma reachable_wf (st : state) : reachable st -> wf st.
Proof.
  induction 1 as [page Hp|st e st' _ IH Hs].
  - by apply wf_DOMContentLoaded.
  - by apply (wf_step e st).
Qed.

Lemma reachable_run (es : list event) (st st' : state) :
  reachable st -> run es st = Some st' -> reachable st'.
Proof.
  revert st. induction es as [|e es IH]; simpl; intros st H.
  - by intros [= <-].
  - destruct (step e st) as [st1|] eqn:Hs; simpl; [|done].
    apply IH. by apply (reachable_step st e).
Qed.

Lemma fresh_blank : fresh_page blank.
Proof.
  unfold fresh_page, blank. simpl. split_and!; try done.
  apply NoDup_nil_2.
Qed.

(** ** Strings and messages *)

Lemma startsWith_app (p s : jsstring) : startsWith p (p ++ s) = true.
Proof.
  induction p as [|a p IH]; simpl; [by destruct s|].
  by rewrite N.eqb_refl, IH.
Qed.

Lemma includes_app (a p b : jsstring) : includes p (a ++ p ++ b) = true.
Proof.
  assert (Hunfold : forall s, includes p s
            = startsWith p s || match s with [] => false | _ :: s' => includes p s' end)
    by (intros []; reflexivity).
  induction a as [|c a IH]; rewrite Hunfold.
  - simpl. by rewrite startsWith_app.
  - simpl. rewrite IH. apply orb_true_r.
Qed.

Lemma remove_node_sublist (d : nat) (l : list node) :
  remove_node d l `sublist_of` l.
Proof.
  induction l as [|n l IH]; simpl; [done|].
  destruct (decide (node_id n = d)).
  - by apply sublist_cons.
  - by apply sublist_skip.
Qed.

Lemma filter_sublist_mono {A} (P : A -> Prop) `{!forall x, Decision (P x)}
    (l1 l2 : list A) :
  l1 `sublist_of` l2 -> filter P l1 `sublist_of` filter P l2.
Proof.
  induction 1 as [|x l1 l2 _ IH|x l1 l2 _ IH]; [done| |];
    rewrite ?filter_cons; destruct (decide (P x)); auto using sublist_skip, sublist_cons.
Qed.

Lemma user_messages_bot (text : jsstring) (st : state) :
  user_messages (addMessage text bot st) = user_messages st.
Proof.
  unfold user_messages. simpl. rewrite filter_app. simpl.
  rewrite filter_cons. simpl. destruct (decide (bot = user)); [done|].
  by rewrite filter_nil, app_nil_r.
Qed.

Lemma user_messages_remove_loading (d : nat) (st : state) :
  user_messages (remove_loading d st) `sublist_of` user_messages st.
Proof.
  unfold user_messages. rewrite remove_loading_chatBox.
  apply filter_sublist_mono, remove_node_sublist.
Qed.

Lemma remove_loading_network (d : nat) (st : state) :
  network (remove_loading d st) = network st.
Proof. unfold remove_loading. by destruct (contains st d). Qed.

Lemma remove_loading_next_node (d : nat) (st : state) :
  next_node (remove_loading d st) = next_node st.
Proof. unfold remove_loading. by destruct (contains st d). Qed.

Lemma remove_loading_tasks (d : nat) (st : state) :
  tasks (remove_loading d st) = tasks st.
Proof. unfold remove_loading. by destruct (contains st d). Qed.

Lemma sendMessage_catch_quiet (d : nat) (e : error) (st : state) :
  network (sendMessage_catch d e st) = network st
  /\ user_messages (sendMessage_catch d e st) `sublist_of` user_messages st.
Proof.
  unfold sendMessage_catch. split.
  - simpl. apply remove_loading_network.
  - rewrite user_messages_bot.
    exact (user_messages_remove_loading d st).
Qed.

(** ** Waiting invocations are never lost *)

Lemma fresh_keys_same (st st' : state) :
  tasks st' = tasks st -> next_task st' = next_task st ->
  fresh_keys st -> fresh_keys st'.
Proof. unfold fresh_keys. by intros -> ->. Qed.

Lemma fresh_keys_suspend (t : task) (st : state) :
  fresh_keys st -> fresh_keys (suspend t st).
Proof.
  intros H k t'. simpl. rewrite lookup_insert. case_decide.
  - intros _. lia.
  - intros Hk. apply H in Hk. lia.
Qed.

Lemma fresh_keys_delete (k : nat) (st : state) :
  fresh_keys st -> fresh_keys (with_tasks (delete k) st).
Proof.
  intros H k' t. simpl. intros [_ Hk]%lookup_delete_Some. by apply H in Hk.
Qed.

Lemma remove_loading_next_task (d : nat) (st : state) :
  next_task (remove_loading d st) = next_task st.
Proof. unfold remove_loading. by destruct (contains st d). Qed.

Ltac fresh_keys_unchanged H :=
  eapply fresh_keys_same; [| |exact H];
  simpl; rewrite ?remove_loading_tasks, ?remove_loading_next_task; reflexivity.

Lemma fresh_keys_sendMessage_catch (d : nat) (e : error) (st : state) :
  fresh_keys st -> fresh_keys (sendMessage_catch d e st).
Proof. intros H. unfold sendMessage_catch. fresh_keys_unchanged H. Qed.

Lemma fresh_keys_uploadFile_catch (e : error) (st : state) :
  fresh_keys st -> fresh_keys (uploadFile_catch e st).
Proof. intros H. fresh_keys_unchanged H. Qed.

Lemma fresh_keys_step (e : event) (st st' : state) :
  fresh_keys st -> step e st = Some st' -> fresh_keys st'.
Proof.
  intros H. destruct e; simpl.
  - intros [= <-]. fresh_keys_unchanged H.
  - intros [= <-]. fresh_keys_unchanged H.
  - intros [= <-]. unfold sendMessage. case_decide; [done|].
    apply fresh_keys_suspend. fresh_keys_unchanged H.
  - intros [= <-]. case_decide; [|done].
    unfold sendMessage. case_decide; [done|].
    apply fresh_keys_suspend. fresh_keys_unchanged H.
  - intros [= <-]. unfold uploadFile. destruct (csvFileInput_files st).
    + fresh_keys_unchanged H.
    + apply fresh_keys_suspend. fresh_keys_unchanged H.
  - destruct (tasks st !! k) as [t|]; simpl; [|done].
    pose proof (fresh_keys_delete k st H) as Hd.
    destruct t; cbn [resume_fetch]; try done; intros [= <-].
    + unfold sendMessage_fetched. destruct r as [e|status].
      * by apply fresh_keys_sendMessage_catch.
      * destruct (negb (ok status)); apply fresh_keys_suspend; fresh_keys_unchanged Hd.
    + unfold uploadFile_fetched. destruct r as [e|status].
      * by apply fresh_keys_uploadFile_catch.
      * destruct (negb (ok status)); by apply fresh_keys_suspend.
  - destruct (tasks st !! k) as [t|]; simpl; [|done].
    pose proof (fresh_keys_delete k st H) as Hd.
    destruct t; cbn [resume_json]; try done; intros [= <-].
    + unfold sendMessage_errorData. destruct (Get _ _).
      * destruct (ToString _); [fresh_keys_unchanged Hd|].
        apply fresh_keys_sendMessage_catch. fresh_keys_unchanged Hd.
      * by apply fresh_keys_sendMessage_catch.
    + unfold sendMessage_data. destruct r as [e|data].
      * by apply fresh_keys_sendMessage_catch.
      * destruct (_ ≫= _); [fresh_keys_unchanged Hd|by apply fresh_keys_sendMessage_catch].
    + by apply fresh_keys_uploadFile_catch.
    + unfold uploadFile_data. destruct r as [e|data].
      * by apply fresh_keys_uploadFile_catch.
      * destruct (_ ≫= _); [|by apply fresh_keys_uploadFile_catch].
        destruct (Get _ _).
        -- destruct (ToString _); [fresh_keys_unchanged Hd|].
           apply fresh_keys_uploadFile_catch. fresh_keys_unchanged Hd.
        -- apply fresh_keys_uploadFile_catch. fresh_keys_unchanged Hd.
  - destruct (timers st) as [|due rest]; [done|].
    destruct (due <=? clock st); [|done].
    intros [= <-]. fresh_keys_unchanged H.
  - intros [= <-]. fresh_keys_unchanged H.
Qed.

(** In a reachable state every waiting invocation has a key below
    [next_task]: [suspend] never overwrites one. *)
Lemma reachable_fresh_keys (st : state) : reachable st -> fresh_keys st.
Proof.
  induction 1 as [page (_ & _ & Ht & _)|st e st' _ IH Hs].
  - intros k t. simpl. rewrite Ht. by rewrite lookup_empty.
  - by apply (fresh_keys_step e st).
Qed.

(** ** Elements are never put back *)

Lemma grows_refl (st : state) : grows st st.
Proof. split; [lia|auto]. Qed.

Lemma grows_trans (st st1 st2 : state) :
  grows st st1 -> grows st1 st2 -> grows st st2.
Proof.
  intros [Hn1 H1] [Hn2 H2]. split; [lia|].
  intros x Hx. destruct (H2 x Hx) as [?|?]; [auto|right; lia].
Qed.

Lemma grows_same (st st1 st2 : state) :
  chatBox st2 = chatBox st1 -> next_node st2 = next_node st1 ->
  grows st st1 -> grows st st2.
Proof. unfold grows, ids. by intros -> ->. Qed.

Lemma grows_addMessage (message : jsstring) (s : sender) (st st1 : state) :
  grows st st1 -> grows st (addMessage message s st1).
Proof.
  intros H. eapply grows_trans; [exact H|]. split; simpl; [lia|].
  intros x. unfold ids. simpl. rewrite fmap_app, elem_of_app. simpl.
  rewrite list_elem_of_singleton. intros [?| ->]; [by left|right; lia].
Qed.

Lemma grows_remove_loading (d : nat) (st st1 : state) :
  grows st st1 -> grows st (remove_loading d st1).
Proof.
  intros H. eapply grows_trans; [exact H|]. split.
  - by rewrite remove_loading_next_node.
  - intros x. unfold ids. rewrite remove_loading_chatBox.
    intros Hx. left. by apply (remove_node_subset d).
Qed.

Ltac grows_step :=
  cbv zeta;
  lazymatch goal with
  | |- grows _ (addMessage _ _ _) => apply grows_addMessage
  | |- grows _ (remove_loading _ _) => apply grows_remove_loading
  | |- grows _ (?f ?st1) => apply (grows_same _ st1); [reflexivity | reflexivity | ]
  end.

Ltac grows_unchanged :=
  match goal with
  | |- grows ?st _ => apply (grows_same _ st); [reflexivity | reflexivity | apply grows_refl]
  end.

Lemma grows_sendMessage_catch (d : nat) (e : error) (st : state) :
  grows st (sendMessage_catch d e st).
Proof. unfold sendMessage_catch. repeat grows_step; apply grows_refl. Qed.

Lemma grows_uploadFile_catch (e : error) (st : state) :
  grows st (uploadFile_catch e st).
Proof. grows_unchanged. Qed.

Lemma sendMessage_sends (st : state) :
  trim (userInput_value st) <> [] ->
  sendMessage st
  = let st1 := addMessage typing bot
                 (with_userInput_value [] (addMessage (trim (userInput_value st)) user st)) in
    suspend (sendMessage_await_fetch (S (next_node st)))
      (fetch (chat_request (trim (userInput_value st)) (lastUploadedFileName st)) st1).
Proof.
  intros H. unfold sendMessage. by destruct (decide (trim (userInput_value st) = [])).
Qed.

Lemma grows_sendMessage (st : state) : grows st (sendMessage st).
Proof.
  destruct (decide (trim (userInput_value st) = [])) as [He|Hne].
  - unfold sendMessage. rewrite decide_True by done. apply grows_refl.
  - rewrite sendMessage_sends by done. repeat grows_step; apply grows_refl.
Qed.

Lemma grows_sendMessage_fetched (d : nat) (r : fetch_result) (st : state) :
  grows st (sendMessage_fetched d r st).
Proof.
  unfold sendMessage_fetched. destruct r as [e|status].
  - apply grows_sendMessage_catch.
  - destruct (negb (ok status)); repeat grows_step; apply grows_refl.
Qed.

Lemma grows_sendMessage_errorData (d : nat) (status : N) (r : json_result) (st : state) :
  grows st (sendMessage_errorData d status r st).
Proof.
  unfold sendMessage_errorData.
  destruct (Get _ _); [|apply grows_sendMessage_catch].
  destruct (ToString _).
  - repeat grows_step; apply grows_refl.
  - eapply grows_trans; [|apply grows_sendMessage_catch]. grows_unchanged.
Qed.

Lemma grows_sendMessage_data (d : nat) (r : json_result) (st : state) :
  grows st (sendMessage_data d r st).
Proof.
  unfold sendMessage_data. destruct r as [e|data]; [apply grows_sendMessage_catch|].
  destruct (_ ≫= _); [|apply grows_sendMessage_catch].
  repeat grows_step; apply grows_refl.
Qed.

Lemma grows_uploadFile_data (r : json_result) (st : state) :
  grows st (uploadFile_data r st).
Proof.
  unfold uploadFile_data. destruct r as [e|data]; [apply grows_uploadFile_catch|].
  destruct (_ ≫= _); [|apply grows_uploadFile_catch].
  destruct (Get _ _).
  - destruct (ToString _).
    + repeat grows_step; apply grows_refl.
    + eapply grows_trans; [|apply grows_uploadFile_catch]. grows_unchanged.
  - eapply grows_trans; [|apply grows_uploadFile_catch]. grows_unchanged.
Qed.

Lemma grows_step_of (e : event) (st st' : state) :
  step e st = Some st' -> grows st st'.
Proof.
  destruct e; simpl.
  - intros [= <-]. grows_unchanged.
  - intros [= <-]. grows_unchanged.
  - intros [= <-]. apply grows_sendMessage.
  - intros [= <-]. case_decide; [apply grows_sendMessage|apply grows_refl].
  - intros [= <-]. unfold uploadFile. destruct (csvFileInput_files st); grows_unchanged.
  - destruct (tasks st !! k) as [t|]; simpl; [|done].
    assert (Hd : grows st (with_tasks (delete k) st)) by grows_unchanged.
    destruct t; cbn [resume_fetch]; try done; intros [= <-];
      (eapply grows_trans; [exact Hd|]).
    + apply grows_sendMessage_fetched.
    + unfold uploadFile_fetched. destruct r as [e|status];
        [apply grows_uploadFile_catch|].
      destruct (negb (ok status)); grows_unchanged.
  - destruct (tasks st !! k) as [t|]; simpl; [|done].
    assert (Hd : grows st (with_tasks (delete k) st)) by grows_unchanged.
    destruct t; cbn [resume_json]; try done; intros [= <-];
      (eapply grows_trans; [exact Hd|]).
    + apply grows_sendMessage_errorData.
    + apply grows_sendMessage_data.
    + apply grows_uploadFile_catch.
    + apply grows_uploadFile_data.
  - destruct (timers st) as [|due rest]; [done|].
    destruct (due <=? clock st); [|done].
    intros [= <-]. grows_unchanged.
  - intros [= <-]. grows_unchanged.
Qed.

Lemma grows_run (es : list event) (st st' : state) :
  run es st = Some st' -> grows st st'.
Proof.
  revert st. induction es as [|e es IH]; simpl; intros st.
  - intros [= <-]. apply grows_refl.
  - destruct (step e st) as [st1|] eqn:Hs; simpl; [|done].
    intros H. eapply grows_trans; [by apply (grows_step_of e)|by apply IH].
Qed.

(** An element that was created and is out of the chat box stays out. *)
Lemma absent_forever (d : nat) (es : list event) (st st' : state) :
  (d < next_node st)%nat -> d ∉ ids st -> run es st = Some st' -> d ∉ ids st'.
Proof.
  intros Hd Hout [_ H]%grows_run Hin.
  destruct (H d Hin); [done|lia].
Qed.

Lemma step_fetch_settles (st : state) (k : nat) (t : task) (r : fetch_result) :
  tasks st !! k = Some t ->
  step (fetch_settles k r) st = resume_fetch t r (with_tasks (delete k) st).
Proof. intros H. unfold step. by rewrite H. Qed.

Lemma step_json_settles (st : state) (k : nat) (t : task) (r : json_result) :
  tasks st !! k = Some t ->
  step (json_settles k r) st = resume_json t r (with_tasks (delete k) st).
Proof. intros H. unfold step. by rewrite H. Qed.

Lemma sendMessage_catch_chatBox (d : nat) (e : error) (st : state) :
  chatBox (sendMessage_catch d e st)
  = remove_node d (chatBox st) ++ [Node (next_node st) bot connectivity_failure].
Proof.
  unfold sendMessage_catch, addMessage, createElement, appendChild. simpl.
  by rewrite remove_loading_chatBox, remove_loading_next_node.
Qed.

Lemma not_in_appended (d : nat) (l : list node) (n : node) :
  d ∉ node_id <$> l -> d <> node_id n -> d ∉ node_id <$> (l ++ [n]).
Proof.
  intros Hl Hn. rewrite fmap_app, elem_of_app. simpl.
  rewrite list_elem_of_singleton. tauto.
Qed.

Lemma sendMessage_catch_gone (d : nat) (e : error) (st : state) :
  NoDup (ids st) -> (d < next_node st)%nat -> d ∉ ids (sendMessage_catch d e st).
Proof.
  intros Hnd Hd. unfold ids. rewrite sendMessage_catch_chatBox.
  apply not_in_appended; [by apply remove_node_gone|simpl; lia].
Qed.

Lemma stays_out_intro (d : nat) (st0 st : state) :
  grows st0 st -> (d < next_node st0)%nat -> d ∉ ids st -> stays_out d st.
Proof.
  intros [Hle _] Hd Hout es st' Hrun.
  apply (absent_forever d es st); [lia|done..].
Qed.

Lemma sendMessage_catch_absent (d : nat) (e : error) (st : state) :
  d ∉ ids st ->
  sendMessage_catch d e st
  = addMessage connectivity_failure bot
      (console_write error_level (lit "Network or parsing error:") st).
Proof. intros H. unfold sendMessage_catch. by rewrite remove_loading_absent. Qed.

(** What the last part of a [sendMessage] whose placeholder is already out
    does: one bot message more, and nothing else in the chat box. *)
Lemma sendMessage_errorData_appends (d : nat) (status : N) (r : json_result) (st : state) :
  d ∉ ids st ->
  exists text,
    chatBox (sendMessage_errorData d status r st)
    = chatBox st ++ [Node (next_node st) bot text]
    /\ tasks (sendMessage_errorData d status r st) = tasks st.
Proof.
  intros H. unfold sendMessage_errorData.
  destruct (Get _ _).
  - destruct (ToString _).
    + by eexists.
    + rewrite sendMessage_catch_absent by done. by eexists.
  - rewrite sendMessage_catch_absent by done. by eexists.
Qed.

Lemma sendMessage_data_appends (d : nat) (r : json_result) (st : state) :
  d ∉ ids st ->
  exists text,
    chatBox (sendMessage_data d r st) = chatBox st ++ [Node (next_node st) bot text]
    /\ tasks (sendMessage_data d r st) = tasks st.
Proof.
  intros H. unfold sendMessage_data. destruct r as [e|data].
  - rewrite sendMessage_catch_absent by done. by eexists.
  - destruct (_ ≫= _).
    + by eexists.
    + rewrite sendMessage_catch_absent by done. by eexists.
Qed.

Lemma remove_loading_lastUploadedFileName (d : nat) (st : state) :
  lastUploadedFileName (remove_loading d st) = lastUploadedFileName st.
Proof. unfold remove_loading. by destruct (contains st d). Qed.

Lemma sendMessage_lastUploadedFileName (st : state) :
  lastUploadedFileName (sendMessage st) = lastUploadedFileName st.
Proof. unfold sendMessage. by case_decide. Qed.

(** ** What the chat request carries *)

Lemma jsval_nested_ind (P : jsval -> Prop) :
  P undefined -> P null -> (forall b, P (boolean b)) -> (forall t, P (number t)) ->
  (forall s, P (str s)) ->
  (forall items, Forall P items -> P (array items)) ->
  (forall props, Forall (fun kv => P kv.2) props -> P (object props)) ->
  forall v, P v.
Proof.
  intros Hu Hn Hb Ht Hs Ha Ho. fix IH 1.
  intros [| |b|t|s|items|props]; [exact Hu|exact Hn|apply Hb|apply Ht|apply Hs| |].
  - apply Ha. induction items as [|x items IHitems]; constructor; [apply IH|apply IHitems].
  - apply Ho. induction props as [|[k x] props IHprops]; constructor;
      [apply IH|apply IHprops].
Qed.

Lemma JSON_stringify_undefined (v : jsval) : JSON_stringify v = None <-> v = undefined.
Proof. by destruct v as [| |b|t|s|items|props]. Qed.

(** What [JSON.stringify] writes is a JSON value. *)
Lemma JSON_stringify_is_json (v j : jsval) : JSON_stringify v = Some j -> is_json j = true.
Proof.
  revert j. induction v as [| |b|t|s|items IH|props IH] using jsval_nested_ind;
    intros j; cbn [JSON_stringify]; intros [= <-]; try done.
  - destruct (finite t) eqn:Hf; [exact Hf|done].
  - cbn [is_json]. induction IH as [|x items Hx _ IHitems]; [done|].
    cbn [forallb]. rewrite IHitems, andb_true_r.
    destruct (JSON_stringify x) as [jx|] eqn:Hjx; [by apply Hx|done].
  - cbn [is_json]. induction IH as [|[k x] props Hx _ IHprops]; [done|].
    simpl in Hx. destruct (JSON_stringify x) as [jx|] eqn:Hjx; [|exact IHprops].
    cbn [forallb]. rewrite IHprops, andb_true_r. by apply Hx.
Qed.

(** ... and a JSON value is written as it is. *)
Lemma JSON_stringify_json (v : jsval) : is_json v = true -> JSON_stringify v = Some v.
Proof.
  induction v as [| |b|t|s|items IH|props IH] using jsval_nested_ind;
    cbn [is_json JSON_stringify]; try done.
  - by intros ->.
  - intros Hall. do 2 f_equal. induction IH as [|x items Hx _ IHitems]; [done|].
    cbn [forallb] in Hall. apply andb_prop in Hall as [H1 H2].
    rewrite (Hx H1). cbn [default]. by rewrite IHitems.
  - intros Hall. do 2 f_equal. induction IH as [|[k x] props Hx _ IHprops]; [done|].
    cbn [forallb] in Hall. apply andb_prop in Hall as [H1 H2]. simpl in Hx, H1.
    rewrite (Hx H1). by rewrite IHprops.
Qed.

Lemma chat_request_payload (message : jsstring) (v : jsval) :
  chat_request message v
  = Request (lit "http://127.0.0.1:5000/chat") (lit "POST")
            [(lit "Content-Type", lit "application/json")]
            (json_body (object ((lit "message", str message)
                                :: match JSON_stringify v with
                                   | Some j => [(lit "last_uploaded_file", j)]
                                   | None => []
                                   end))).
Proof.
  unfold chat_request. simpl. by destruct (JSON_stringify v).
Qed.

(** A body that can be read at [message] can be read at [filename]. *)
Lemma Get_any (data x : jsval) (p q : jsstring) :
  Get data p = Ok x -> exists y, Get data q = Ok y.
Proof. destruct data; simpl; try done; by eexists. Qed.

(** The remembered file name changes at most when an [uploadFile] reads
    the parsed body of an ok response. *)
Lemma lastUploadedFileName_frame (e : event) (st st' : state) :
  step e st = Some st' ->
  (forall k data, e = json_settles k (json_value data) ->
                  tasks st !! k <> Some uploadFile_await_data) ->
  lastUploadedFileName st' = lastUploadedFileName st.
Proof.
  destruct e; simpl.
  - by intros [= <-].
  - by intros [= <-].
  - intros [= <-] _. apply sendMessage_lastUploadedFileName.
  - intros [= <-] _. case_decide; [apply sendMessage_lastUploadedFileName|done].
  - intros [= <-] _. unfold uploadFile. by destruct (csvFileInput_files st).
  - destruct (tasks st !! k) as [t|]; simpl; [|done].
    destruct t; cbn [resume_fetch]; try done; intros [= <-] _.
    + unfold sendMessage_fetched, sendMessage_catch. destruct r as [e|status].
      * simpl. by rewrite remove_loading_lastUploadedFileName.
      * destruct (negb (ok status)); simpl;
          by rewrite remove_loading_lastUploadedFileName.
    + unfold uploadFile_fetched. destruct r as [e|status]; [done|].
      by destruct (negb (ok status)).
  - destruct (tasks st !! k) as [t|] eqn:Hk; simpl; [|done].
    destruct t; cbn [resume_json]; try done; intros [= <-] Hno.
    + unfold sendMessage_errorData, sendMessage_catch.
      destruct (Get _ _); [destruct (ToString _)|]; simpl;
        by rewrite ?remove_loading_lastUploadedFileName.
    + unfold sendMessage_data, sendMessage_catch. destruct r as [e|data].
      * simpl. by rewrite remove_loading_lastUploadedFileName.
      * destruct (_ ≫= _); simpl; by rewrite ?remove_loading_lastUploadedFileName.
    + done.
    + destruct r as [e|data]; [done|]. by destruct (Hno k data).
  - destruct (timers st) as [|due rest]; [done|].
    destruct (due <=? clock st); [|done].
    by intros [= <-].
  - by intros [= <-].
Qed.

(** ** The claims *)

(** C1, as the script has it.  With an input whose trimmed value is not
    empty, [sendMessage] appends one user message (the trimmed text) and
    the typing placeholder, sends one request and waits for it: a POST to
    [http://127.0.0.1:5000/chat] with [Content-Type: application/json],
    whose body is the JSON text of [{message, last_uploaded_file}], with
    the trimmed text and with what [JSON.stringify] writes for the
    remembered file name ([null] before an upload has named a file, the
    name itself once it is a string); when the remembered value is
    [undefined] the key is left out and the body is [{message}] alone.
    The later parts of the invocation send nothing and add no user
    message.  With an input whose trimmed value is empty, [sendMessage]
    changes nothing at all. *)
Theorem sendMessage_one_message_one_request (st : state) :
  let message := trim (userInput_value st) in
  let post (payload : list (jsstring * jsval)) :=
    Request (lit "http://127.0.0.1:5000/chat") (lit "POST")
            [(lit "Content-Type", lit "application/json")]
            (json_body (object payload)) in
  (message <> [] ->
     chatBox (sendMessage st)
       = chatBox st ++ [Node (next_node st) user message;
                        Node (S (next_node st)) bot typing]
     /\ user_messages (sendMessage st)
        = user_messages st ++ [Node (next_node st) user message]
     /\ (exists payload,
           network (sendMessage st) = network st ++ [post payload]
           /\ match lastUploadedFileName st with
              | undefined => payload = [(lit "message", str message)]
              | null =>
                  payload = [(lit "message", str message); (lit "last_uploaded_file", null)]
              | str f =>
                  payload = [(lit "message", str message); (lit "last_uploaded_file", str f)]
              | v =>
                  exists j,
                    JSON_stringify v = Some j /\ is_json j = true
                    /\ payload = [(lit "message", str message);
                                  (lit "last_uploaded_file", j)]
              end)
     /\ tasks (sendMessage st)
        = <[next_task st := sendMessage_await_fetch (S (next_node st))]> (tasks st))
  /\ (message = [] -> sendMessage st = st)
  /\ (forall d r st1,
        network (sendMessage_fetched d r st1) = network st1
        /\ user_messages (sendMessage_fetched d r st1) `sublist_of` user_messages st1)
  /\ (forall d status r st1,
        network (sendMessage_errorData d status r st1) = network st1
        /\ user_messages (sendMessage_errorData d status r st1)
           `sublist_of` user_messages st1)
  /\ (forall d r st1,
        network (sendMessage_data d r st1) = network st1
        /\ user_messages (sendMessage_data d r st1) `sublist_of` user_messages st1).
Proof.
  intros message post. split_and!.
  - intros Hne. unfold sendMessage. fold message.
    destruct (decide (message = [])); [done|]. simpl.
    split_and!; try done.
    + by rewrite <- app_assoc.
    + unfold user_messages. simpl. rewrite <- app_assoc. simpl.
      rewrite filter_app. f_equal.
    + rewrite chat_request_payload. fold post. eexists. split; [reflexivity|].
      destruct (JSON_stringify (lastUploadedFileName st)) as [j|] eqn:Hj.
      * pose proof (JSON_stringify_is_json _ _ Hj) as Hjson.
        destruct (lastUploadedFileName st) as [| |b|t|s|items|props];
          [done|by injection Hj as <-|by exists j..|by injection Hj as <-
          |by exists j|by exists j].
      * apply JSON_stringify_undefined in Hj. by rewrite Hj.
  - intros He. unfold sendMessage. fold message.
    by destruct (decide (message = [])).
  - intros d [e|status] st1; simpl; [apply sendMessage_catch_quiet|].
    destruct (negb (ok status)); simpl;
      (split; [apply remove_loading_network|apply user_messages_remove_loading]).
  - intros d status r st1. unfold sendMessage_errorData.
    destruct (Get _ _); [|apply sendMessage_catch_quiet].
    destruct (ToString _).
    + split; [done|]. by rewrite user_messages_bot.
    + match goal with |- context [sendMessage_catch ?a ?b ?c] =>
        destruct (sendMessage_catch_quiet a b c) as [Hn Hu] end.
      split; [by rewrite Hn|exact Hu].
  - intros d [e|data] st1; simpl; [apply sendMessage_catch_quiet|].
    destruct (_ ≫= _); [|apply sendMessage_catch_quiet].
    split; [done|]. by rewrite user_messages_bot.
Qed.

(** C2.  When the body of an ok [/upload] response parses to an object
    whose [filename] is the string [f] and whose [message] is the string
    [m], the waiting [uploadFile] remembers [f], shows [m] as a success
    status, and appends one bot message, the confirmation that quotes [f]. *)
Theorem uploadFile_success (st : state) (k : nat) (data : jsval) (f m : jsstring) :
  tasks st !! k = Some uploadFile_await_data ->
  Get data (lit "filename") = Ok (str f) ->
  Get data (lit "message") = Ok (str m) ->
  exists st',
    step (json_settles k (json_value data)) st = Some st'
    /\ lastUploadedFileName st' = str f
    /\ uploadStatus_textContent st' = m
    /\ uploadStatus_className st' = lit "status-message success"
    /\ chatBox st' = chatBox st ++ [Node (next_node st) bot (upload_confirmation f)]
    /\ includes f (upload_confirmation f) = true
    /\ tasks st' = delete k (tasks st).
Proof.
  intros Hk Hf Hm. eexists. split.
  - simpl. rewrite Hk. simpl. unfold uploadFile_data.
    rewrite Hm. simpl. rewrite Hf. simpl. reflexivity.
  - simpl. split_and!; try done.
    unfold upload_confirmation. apply (includes_app (lit "File " ++ quote)).
Qed.

(** C3, as the script has it.  The remembered file name is written by
    one statement only, line 112: one step of the script writes it exactly
    when it resumes an [uploadFile] with the parsed body of an ok response
    whose [message] line 111 could show, and then it holds that body's
    [filename], whatever that is and whether or not the confirmation of
    line 113 can be written afterwards.  Every other step leaves it as it
    was: every other event, every path of [sendMessage], and the paths of
    [uploadFile] that fail before line 112. *)
Theorem lastUploadedFileName_written_by_upload_only (e : event) (st st' : state) :
  step e st = Some st' ->
  (exists k data text,
     e = json_settles k (json_value data)
     /\ tasks st !! k = Some uploadFile_await_data
     /\ (message ← Get data (lit "message"); DOMString message) = Ok text
     /\ Get data (lit "filename") = Ok (lastUploadedFileName st'))
  \/ (lastUploadedFileName st' = lastUploadedFileName st
      /\ forall k data text,
           e = json_settles k (json_value data) ->
           tasks st !! k = Some uploadFile_await_data ->
           (message ← Get data (lit "message"); DOMString message) <> Ok text).
Proof.
  intros Hs.
  assert (Hcase : (exists k data, e = json_settles k (json_value data)
                                  /\ tasks st !! k = Some uploadFile_await_data)
                  \/ forall k data, e = json_settles k (json_value data) ->
                                    tasks st !! k <> Some uploadFile_await_data).
  { destruct e as [| | | | | |k [err|data]| |]; try (right; intros; discriminate).
    destruct (tasks st !! k) as [[]|] eqn:Hk;
      try (right; intros k' data' [= <- <-]; by rewrite Hk).
    left. by exists k, data. }
  destruct Hcase as [(k & data & -> & Hk)|Hno].
  - revert Hs. rewrite (step_json_settles st k _ _ Hk).
    cbn [resume_json]. unfold uploadFile_data.
    destruct (_ ≫= _) as [text|err] eqn:Hm.
    + intros Hs. left. exists k, data, text. split_and!; [done..|].
      destruct (Get data (lit "message")) as [x|] eqn:Hx; [|done].
      destruct (Get_any data x _ (lit "filename") Hx) as [filename Hf].
      revert Hs. rewrite Hf. intros [= <-]. by destruct (ToString filename).
    + intros [= <-]. right. split; [done|].
      intros k' data' text' [= <- <-] _. by rewrite Hm.
  - right. split; [by apply (lastUploadedFileName_frame e)|].
    intros k data text He Hk _. by destruct (Hno k data).
Qed.

(** The error reply (the part of C5 the script keeps).  When the body of
    a [/chat] response that is not ok has been read, and it is not the
    JSON [null], [sendMessage] appends one bot message that starts with
    [Bot Error: ]: it goes on with the body's [response] if that is truthy
    (a string that is not empty, for one) and prints, and with
    [HTTP error! status: ] and the status code if the body could not be
    parsed or its [response] is missing or falsy. *)
Theorem sendMessage_error_response (st : state) (k d : nat) (status : N) :
  tasks st !! k = Some (sendMessage_await_errorData d status) ->
  let generic := lit "HTTP error! status: " ++ decimal status in
  let shows (r : json_result) (text : jsstring) :=
    exists st',
      step (json_settles k r) st = Some st'
      /\ chatBox st'
         = chatBox st ++ [Node (next_node st) bot (lit "Bot Error: " ++ text)] in
  (forall e, shows (json_rejected e) generic)
  /\ (forall body response,
        Get body (lit "response") = Ok response -> ToBoolean response = false ->
        shows (json_value body) generic)
  /\ (forall body response text,
        Get body (lit "response") = Ok response -> ToBoolean response = true ->
        ToString response = Ok text ->
        shows (json_value body) text)
  /\ (forall body s,
        Get body (lit "response") = Ok (str s) -> s <> [] ->
        shows (json_value body) s)
  /\ (forall text,
        startsWith (lit "Bot Error: ") (lit "Bot Error: " ++ text) = true
        /\ includes text (lit "Bot Error: " ++ text) = true).
Proof.
  intros Hk generic shows.
  assert (Hfalsy : forall r response,
            Get (or_empty_object r) (lit "response") = Ok response ->
            ToBoolean response = false -> shows r generic).
  { intros r response Hg Hb. eexists. split.
    - rewrite (step_json_settles st k _ _ Hk). unfold resume_json, sendMessage_errorData.
      rewrite Hg. unfold or_else. rewrite Hb. reflexivity.
    - done. }
  assert (Htruthy : forall body response text,
            Get body (lit "response") = Ok response -> ToBoolean response = true ->
            ToString response = Ok text -> shows (json_value body) text).
  { intros body response text Hg Hb Hs. eexists. split.
    - rewrite (step_json_settles st k _ _ Hk). unfold resume_json, sendMessage_errorData.
      simpl or_empty_object. rewrite Hg. unfold or_else. rewrite Hb, Hs. reflexivity.
    - done. }
  split_and!.
  - intros e. by apply (Hfalsy (json_rejected e) undefined).
  - intros body response Hg Hb. by apply (Hfalsy (json_value body) response).
  - exact Htruthy.
  - intros body s Hg Hs. apply (Htruthy body (str s) s); [done| |done].
    simpl. by rewrite bool_decide_eq_false_2.
  - intros text. split; [apply startsWith_app|].
    rewrite <- (app_nil_r text) at 2. apply includes_app.
Qed.

(** C6.  In a reachable state, however an invocation of [sendMessage]
    ends, its placeholder is not in the chat box then, nor ever after:
    - a rejected [fetch] takes it out and appends the failure message;
    - an answered [fetch] takes it out before the body is read;
    - when the body has been read (or could not be), the placeholder is
      out already, and one bot message, reply or error, is appended. *)
Theorem placeholder_gone_after_sendMessage (st : state) (k d : nat) :
  reachable st ->
  (tasks st !! k = Some (sendMessage_await_fetch d) ->
     (forall e, exists st',
        step (fetch_settles k (fetch_rejected e)) st = Some st'
        /\ chatBox st'
           = remove_node d (chatBox st) ++ [Node (next_node st) bot connectivity_failure]
        /\ tasks st' = delete k (tasks st)
        /\ stays_out d st')
     /\ (forall status, exists st',
        step (fetch_settles k (fetch_response status)) st = Some st'
        /\ chatBox st' = remove_node d (chatBox st)
        /\ stays_out d st'))
  /\ (forall status,
      tasks st !! k = Some (sendMessage_await_errorData d status) ->
      forall r, exists st' text,
        step (json_settles k r) st = Some st'
        /\ chatBox st' = chatBox st ++ [Node (next_node st) bot text]
        /\ tasks st' = delete k (tasks st)
        /\ stays_out d st')
  /\ (tasks st !! k = Some (sendMessage_await_data d) ->
      forall r, exists st' text,
        step (json_settles k r) st = Some st'
        /\ chatBox st' = chatBox st ++ [Node (next_node st) bot text]
        /\ tasks st' = delete k (tasks st)
        /\ stays_out d st').
Proof.
  intros Hr. pose proof (reachable_wf st Hr) as (Hnd & Hlt & Ht).
  split_and!.
  - intros Hk. pose proof (Ht k _ Hk) as Hd. simpl in Hd. split.
    + intros e. exists (sendMessage_catch d e (with_tasks (delete k) st)).
      assert (Hs : step (fetch_settles k (fetch_rejected e)) st
                   = Some (sendMessage_catch d e (with_tasks (delete k) st)))
        by by rewrite (step_fetch_settles st k _ _ Hk).
      split_and!; [done| | |].
      * by rewrite sendMessage_catch_chatBox.
      * unfold sendMessage_catch. simpl. by rewrite remove_loading_tasks.
      * apply (stays_out_intro d st); [by apply grows_step_of in Hs|done|].
        by apply sendMessage_catch_gone.
    + intros status.
      exists (sendMessage_fetched d (fetch_response status) (with_tasks (delete k) st)).
      assert (Hs : step (fetch_settles k (fetch_response status)) st
                   = Some (sendMessage_fetched d (fetch_response status)
                             (with_tasks (delete k) st)))
        by by rewrite (step_fetch_settles st k _ _ Hk).
      assert (Hc : chatBox (sendMessage_fetched d (fetch_response status)
                              (with_tasks (delete k) st))
                   = remove_node d (chatBox st)).
      { unfold sendMessage_fetched. destruct (negb (ok status)); simpl;
          by rewrite remove_loading_chatBox. }
      split_and!; [done|done|].
      apply (stays_out_intro d st); [by apply grows_step_of in Hs|done|].
      unfold ids. rewrite Hc. by apply remove_node_gone.
  - intros status Hk r. pose proof (Ht k _ Hk) as [Hd Hout]. simpl in Hd.
    destruct (sendMessage_errorData_appends d status r (with_tasks (delete k) st))
      as (text & Hc & Htasks); [done|].
    exists (sendMessage_errorData d status r (with_tasks (delete k) st)), text.
    assert (Hs : step (json_settles k r) st
                 = Some (sendMessage_errorData d status r (with_tasks (delete k) st)))
      by by rewrite (step_json_settles st k _ _ Hk).
    split_and!; [done..|].
    apply (stays_out_intro d st); [by apply grows_step_of in Hs|done|].
    unfold ids. rewrite Hc. apply not_in_appended; [done|simpl; lia].
  - intros Hk r. pose proof (Ht k _ Hk) as [Hd Hout]. simpl in Hd.
    destruct (sendMessage_data_appends d r (with_tasks (delete k) st))
      as (text & Hc & Htasks); [done|].
    exists (sendMessage_data d r (with_tasks (delete k) st)), text.
    assert (Hs : step (json_settles k r) st
                 = Some (sendMessage_data d r (with_tasks (delete k) st)))
      by by rewrite (step_json_settles st k _ _ Hk).
    split_and!; [done..|].
    apply (stays_out_intro d st); [by apply grows_step_of in Hs|done|].
    unfold ids. rewrite Hc. apply not_in_appended; [done|simpl; lia].
Qed.

(** C7.  With no file selected, a click on the upload button sends
    nothing and leaves no invocation waiting; the status shows the error
    at once, and the remembered file name is untouched. *)
Theorem uploadFile_no_file (st : state) :
  csvFileInput_files st = [] ->
  exists st',
    step click_uploadButton st = Some st'
    /\ network st' = network st
    /\ tasks st' = tasks st
    /\ uploadStatus_textContent st' = lit "Please select a file first."
    /\ uploadStatus_className st' = lit "status-message error"
    /\ lastUploadedFileName st' = lastUploadedFileName st.
Proof.
  intros H. eexists. split.
  - simpl. unfold uploadFile. rewrite H. reflexivity.
  - done.
Qed.

(** C8.  When the [fetch] of [sendMessage] is rejected, whatever the
    error, the invocation ends: the placeholder is taken out and one bot
    message with the fixed connectivity text is appended; nothing is
    sent, and every rejection leaves the very same state. *)
Theorem sendMessage_transport_failure (st : state) (k d : nat) (e : error) :
  reachable st ->
  tasks st !! k = Some (sendMessage_await_fetch d) ->
  exists st',
    step (fetch_settles k (fetch_rejected e)) st = Some st'
    /\ chatBox st'
       = remove_node d (chatBox st) ++ [Node (next_node st) bot connectivity_failure]
    /\ (d ∉ ids st')
    /\ tasks st' = delete k (tasks st)
    /\ network st' = network st
    /\ (forall e', step (fetch_settles k (fetch_rejected e')) st = Some st').
Proof.
  intros Hr Hk. pose proof (reachable_wf st Hr) as (Hnd & Hlt & Ht).
  pose proof (Ht k _ Hk) as Hd. simpl in Hd.
  exists (sendMessage_catch d e (with_tasks (delete k) st)).
  split; [by rewrite (step_fetch_settles st k _ _ Hk)|].
  split_and!.
  - by rewrite sendMessage_catch_chatBox.
  - by apply sendMessage_catch_gone.
  - unfold sendMessage_catch. simpl. by rewrite remove_loading_tasks.
  - unfold sendMessage_catch. simpl. by rewrite remove_loading_network.
  - intros e'. by rewrite (step_fetch_settles st k _ _ Hk).
Qed.

(** C9.  When the body of an ok [/chat] response parses to an object whose
    [response] is the string [r], the waiting [sendMessage] appends one bot
    message with text [r], and its placeholder is not in the chat box. *)
Theorem sendMessage_success (st : state) (k d : nat) (data : jsval) (r : jsstring) :
  reachable st ->
  tasks st !! k = Some (sendMessage_await_data d) ->
  Get data (lit "response") = Ok (str r) ->
  exists st',
    step (json_settles k (json_value data)) st = Some st'
    /\ chatBox st' = chatBox st ++ [Node (next_node st) bot r]
    /\ (d ∉ ids st')
    /\ tasks st' = delete k (tasks st).
Proof.
  intros Hr Hk Hg. pose proof (reachable_wf st Hr) as (Hnd & Hlt & Ht).
  pose proof (Ht k _ Hk) as [Hd Hout]. simpl in Hd.
  eexists. split.
  { rewrite (step_json_settles st k _ _ Hk). unfold resume_json, sendMessage_data.
    rewrite Hg. reflexivity. }
  split_and!; [done| |done].
  unfold ids. simpl. apply not_in_appended; [done|simpl; lia].
Qed.

(** C10.  When the body of an ok [/chat] response cannot be parsed, the
    waiting [sendMessage] appends one bot message whose text is the
    connectivity text of a rejected [fetch], a text that does not start
    as an error reply does and holds no status code; the placeholder is
    not in the chat box. *)
Theorem sendMessage_unparseable_success (st : state) (k d : nat) (e : error) :
  reachable st ->
  tasks st !! k = Some (sendMessage_await_data d) ->
  exists st',
    step (json_settles k (json_rejected e)) st = Some st'
    /\ chatBox st' = chatBox st ++ [Node (next_node st) bot connectivity_failure]
    /\ (d ∉ ids st')
    /\ (forall d0 e0 st0,
          node_text <$> last (chatBox (sendMessage_fetched d0 (fetch_rejected e0) st0))
          = node_text <$> last (chatBox st'))
    /\ startsWith (lit "Bot Error: ") connectivity_failure = false
    /\ includes (lit "HTTP error! status: ") connectivity_failure = false.
Proof.
  intros Hr Hk. pose proof (reachable_wf st Hr) as (Hnd & Hlt & Ht).
  pose proof (Ht k _ Hk) as [Hd Hout]. simpl in Hd.
  exists (sendMessage_catch d e (with_tasks (delete k) st)).
  split; [by rewrite (step_json_settles st k _ _ Hk)|].
  assert (Hc : chatBox (sendMessage_catch d e (with_tasks (delete k) st))
               = chatBox st ++ [Node (next_node st) bot connectivity_failure]).
  { rewrite sendMessage_catch_chatBox. simpl. by rewrite remove_node_absent. }
  split_and!.
  - exact Hc.
  - unfold ids. rewrite Hc. apply not_in_appended; [done|simpl; lia].
  - intros d0 e0 st0. rewrite Hc. unfold sendMessage_fetched.
    rewrite sendMessage_catch_chatBox. by rewrite !last_snoc.
  - by vm_compute.
  - by vm_compute.
Qed.


(** ** Further properties *)

(** The chat request.  It is a POST to [http://127.0.0.1:5000/chat] with
    [Content-Type: application/json], and its body is the JSON text of
    [{message, last_uploaded_file}]: [last_uploaded_file] is left out
    exactly when the remembered value is [undefined] (as after an ok
    upload response that named no file); otherwise it carries a JSON
    value, which is the remembered value itself whenever that is one (a
    string, [null], ...). *)
Theorem chat_request_body (message : jsstring) (v : jsval) :
  exists payload,
    chat_request message v
    = Request (lit "http://127.0.0.1:5000/chat") (lit "POST")
              [(lit "Content-Type", lit "application/json")]
              (json_body (object payload))
    /\ ((v = undefined /\ payload = [(lit "message", str message)])
        \/ (exists j,
              v <> undefined
              /\ payload = [(lit "message", str message); (lit "last_uploaded_file", j)]
              /\ is_json j = true
              /\ (is_json v = true -> j = v)))
    /\ own (lit "message") payload = Some (str message)
    /\ (own (lit "last_uploaded_file") payload = None <-> v = undefined).
Proof.
  rewrite chat_request_payload. eexists. split; [reflexivity|].
  destruct (JSON_stringify v) as [j|] eqn:Hj.
  - assert (Hv : v <> undefined) by (intros ->; discriminate Hj).
    split_and!.
    + right. exists j. split_and!; [done|done|by apply (JSON_stringify_is_json v)|].
      intros Hjson. rewrite (JSON_stringify_json v Hjson) in Hj. by injection Hj.
    + vm_compute. reflexivity.
    + split; [|done]. vm_compute. discriminate.
  - apply JSON_stringify_undefined in Hj. split_and!.
    + by left.
    + vm_compute. reflexivity.
    + split; [done|]. intros _. vm_compute. reflexivity.
Qed.

(** The invariant of the page.  In every reachable state the elements of
    the chat box are distinct and were created earlier, and every waiting
    [sendMessage] knows a placeholder created earlier, which is out of
    the chat box once [fetch] has answered. *)
Theorem reachable_page_invariant (st : state) :
  reachable st ->
  NoDup (ids st)
  /\ Forall (fun i => (i < next_node st)%nat) (ids st)
  /\ forall k t, tasks st !! k = Some t -> task_ok st t.
Proof. apply reachable_wf. Qed.

(** ** Uploads *)

Lemma uploadFile_catch_shows (e : error) (st : state) :
  uploadStatus_textContent (uploadFile_catch e st) = lit "Upload failed: " ++ error_message e
  /\ uploadStatus_className (uploadFile_catch e st) = lit "status-message error"
  /\ timers (uploadFile_catch e st) = timers st ++ [clock st + 5000]
  /\ chatBox (uploadFile_catch e st) = chatBox st
  /\ lastUploadedFileName (uploadFile_catch e st) = lastUploadedFileName st
  /\ network (uploadFile_catch e st) = network st
  /\ tasks (uploadFile_catch e st) = tasks st.
Proof. done. Qed.

(** What [uploadFile] does with the parsed body of an ok response whose
    [message] and [filename] can both be shown. *)
Lemma uploadFile_data_shown (data message filename : jsval) (text name : jsstring)
    (st : state) :
  Get data (lit "message") = Ok message -> DOMString message = Ok text ->
  Get data (lit "filename") = Ok filename -> ToString filename = Ok name ->
  uploadFile_data (json_value data) st
  = console_write log (lit "File uploaded:")
      (addMessage (upload_confirmation name) bot
         (with_lastUploadedFileName filename
            (setUploadStatus text (lit "success") st))).
Proof.
  intros Hm Ht Hf Hn. unfold uploadFile_data.
  rewrite Hm. cbn [mbind result_bind]. rewrite Ht, Hf, Hn. reflexivity.
Qed.

(** An upload the server refuses.  When the body of an [/upload] response
    that is not ok has been read, the status shows, as an error,
    [Upload failed: ] followed by the body's [message] if that is truthy
    and prints, by [HTTP error! status: ] and the status code if the body
    could not be parsed or its [message] is missing or falsy, and by the
    engine's own complaint if the body is the JSON [null].  Nothing is
    added to the chat box, nothing is sent, and the remembered file name
    stays. *)
Theorem uploadFile_error_response (st : state) (k : nat) (status : N) :
  tasks st !! k = Some (uploadFile_await_errorData status) ->
  let generic := lit "HTTP error! status: " ++ decimal status in
  let fails (r : json_result) (text : jsstring) :=
    exists st',
      step (json_settles k r) st = Some st'
      /\ uploadStatus_textContent st' = lit "Upload failed: " ++ text
      /\ uploadStatus_className st' = lit "status-message error"
      /\ chatBox st' = chatBox st
      /\ lastUploadedFileName st' = lastUploadedFileName st
      /\ network st' = network st
      /\ tasks st' = delete k (tasks st) in
  (forall e, fails (json_rejected e) generic)
  /\ (forall body message,
        Get body (lit "message") = Ok message -> ToBoolean message = false ->
        fails (json_value body) generic)
  /\ (forall body message text,
        Get body (lit "message") = Ok message -> ToBoolean message = true ->
        ToString message = Ok text ->
        fails (json_value body) text)
  /\ fails (json_value null) (wording (reads_null (lit "message"))).
Proof.
  intros Hk generic fails.
  assert (Hthrown : forall r e,
            (match Get (or_empty_object r) (lit "message") with
             | Throw e' => e'
             | Ok message =>
                 match ToString (or_else message (http_error status)) with
                 | Throw e' => e'
                 | Ok text => Error text
                 end
             end) = e ->
            fails r (error_message e)).
  { intros r e He. exists (uploadFile_catch e (with_tasks (delete k) st)). split.
    - rewrite (step_json_settles st k _ _ Hk). unfold resume_json, uploadFile_errorData.
      cbv zeta. by rewrite He.
    - done. }
  split_and!.
  - intros e. by apply (Hthrown (json_rejected e) (Error generic)).
  - intros body message Hg Hb. apply (Hthrown (json_value body) (Error generic)).
    simpl or_empty_object. rewrite Hg. unfold or_else. by rewrite Hb.
  - intros body message text Hg Hb Hs. apply (Hthrown (json_value body) (Error text)).
    simpl or_empty_object. rewrite Hg. unfold or_else. by rewrite Hb, Hs.
  - by apply (Hthrown (json_value null) (TypeError (reads_null (lit "message")))).
Qed.

(** An upload that fails on the way.  When [fetch] is rejected, when the
    body of an ok response cannot be parsed, and when it parses to
    [null], the status shows, as an error, [Upload failed: ] followed by
    the message of the error (the browser's, or the engine's); the chat
    box, the remembered file name and the request log are as they were,
    and the invocation is over. *)
Theorem uploadFile_failure (st : state) (k : nat) :
  let fails (st' : state) (e : error) :=
    uploadStatus_textContent st' = lit "Upload failed: " ++ error_message e
    /\ uploadStatus_className st' = lit "status-message error"
    /\ chatBox st' = chatBox st
    /\ lastUploadedFileName st' = lastUploadedFileName st
    /\ network st' = network st
    /\ tasks st' = delete k (tasks st) in
  (tasks st !! k = Some uploadFile_await_fetch ->
   forall e, exists st',
     step (fetch_settles k (fetch_rejected e)) st = Some st' /\ fails st' e)
  /\ (tasks st !! k = Some uploadFile_await_data ->
      (forall e, exists st',
         step (json_settles k (json_rejected e)) st = Some st' /\ fails st' e)
      /\ (exists st',
            step (json_settles k (json_value null)) st = Some st'
            /\ fails st' (TypeError (reads_null (lit "message"))))).
Proof.
  intros fails. split.
  - intros Hk e. exists (uploadFile_catch e (with_tasks (delete k) st)).
    split; [by rewrite (step_fetch_settles st k _ _ Hk)|done].
  - intros Hk. split.
    + intros e. exists (uploadFile_catch e (with_tasks (delete k) st)).
      split; [by rewrite (step_json_settles st k _ _ Hk)|done].
    + eexists. split; [by rewrite (step_json_settles st k _ _ Hk)|done].
Qed.

(** An ok upload, whatever the body says.  When the parsed body of an ok
    [/upload] response has a [message] the status can show and a
    [filename] that prints, [uploadFile] shows the message as a success
    status, remembers the [filename] as it is, and appends the
    confirmation that quotes it.  A body with neither field (an empty
    object) thus shows an empty success status, leaves [undefined]
    remembered, and confirms a file called [undefined]. *)
Theorem uploadFile_success_any_body (st : state) (k : nat) (data message filename : jsval)
    (text name : jsstring) :
  tasks st !! k = Some uploadFile_await_data ->
  Get data (lit "message") = Ok message -> DOMString message = Ok text ->
  Get data (lit "filename") = Ok filename -> ToString filename = Ok name ->
  exists st',
    step (json_settles k (json_value data)) st = Some st'
    /\ uploadStatus_textContent st' = text
    /\ uploadStatus_className st' = lit "status-message success"
    /\ lastUploadedFileName st' = filename
    /\ chatBox st' = chatBox st ++ [Node (next_node st) bot (upload_confirmation name)]
    /\ network st' = network st
    /\ tasks st' = delete k (tasks st).
Proof.
  intros Hk Hm Ht Hf Hn. eexists. split.
  - rewrite (step_json_settles st k _ _ Hk). unfold resume_json.
    by rewrite (uploadFile_data_shown data message filename text name).
  - done.
Qed.

(** Two uploads in flight.  When two invocations of [uploadFile] both
    wait for the body of an ok response, the remembered file name is the
    one of the body that is read last, whichever request was sent first;
    both confirmations are appended, in the order the bodies were read. *)
Theorem last_upload_response_wins (st : state) (k1 k2 : nat) (d1 d2 : jsval)
    (f1 m1 f2 m2 : jsstring) :
  tasks st !! k1 = Some uploadFile_await_data ->
  tasks st !! k2 = Some uploadFile_await_data ->
  k1 <> k2 ->
  Get d1 (lit "filename") = Ok (str f1) -> Get d1 (lit "message") = Ok (str m1) ->
  Get d2 (lit "filename") = Ok (str f2) -> Get d2 (lit "message") = Ok (str m2) ->
  exists st',
    run [json_settles k1 (json_value d1); json_settles k2 (json_value d2)] st = Some st'
    /\ lastUploadedFileName st' = str f2
    /\ uploadStatus_textContent st' = m2
    /\ chatBox st'
       = chatBox st ++ [Node (next_node st) bot (upload_confirmation f1);
                        Node (S (next_node st)) bot (upload_confirmation f2)]
    /\ tasks st' = delete k2 (delete k1 (tasks st)).
Proof.
  intros Hk1 Hk2 Hne Hf1 Hm1 Hf2 Hm2.
  set (st1 := uploadFile_data (json_value d1) (with_tasks (delete k1) st)).
  assert (H1 : step (json_settles k1 (json_value d1)) st = Some st1)
    by by rewrite (step_json_settles st k1 _ _ Hk1).
  assert (E1 : st1 = console_write log (lit "File uploaded:")
                 (addMessage (upload_confirmation f1) bot
                    (with_lastUploadedFileName (str f1)
                       (setUploadStatus m1 (lit "success") (with_tasks (delete k1) st)))))
    by by apply (uploadFile_data_shown d1 (str m1) (str f1)).
  assert (Hk2' : tasks st1 !! k2 = Some uploadFile_await_data).
  { rewrite E1. simpl. by rewrite lookup_delete_ne. }
  eexists. split.
  - cbn [run]. rewrite H1. cbn [mbind option_bind].
    rewrite (step_json_settles st1 k2 _ _ Hk2'). unfold resume_json.
    rewrite (uploadFile_data_shown d2 (str m2) (str f2) m2 f2) by done.
    reflexivity.
  - rewrite E1. simpl. split_and!; try done. by rewrite <- app_assoc.
Qed.

(** From upload to chat.  Once an ok upload has been acknowledged with
    the file name [f], the next message the user sends goes out with
    [last_uploaded_file] set to [f]. *)
Theorem chat_after_upload_names_the_file (st : state) (k : nat) (data : jsval)
    (f m input : jsstring) :
  tasks st !! k = Some uploadFile_await_data ->
  Get data (lit "filename") = Ok (str f) -> Get data (lit "message") = Ok (str m) ->
  trim input <> [] ->
  exists st',
    run [json_settles k (json_value data); user_types input; click_sendButton] st = Some st'
    /\ network st' = network st ++ [chat_request (trim input) (str f)]
    /\ request_body (chat_request (trim input) (str f))
       = json_body (object [(lit "message", str (trim input));
                            (lit "last_uploaded_file", str f)]).
Proof.
  intros Hk Hf Hm Hne. eexists. split.
  - cbn [run]. rewrite (step_json_settles st k _ _ Hk). unfold resume_json.
    rewrite (uploadFile_data_shown data (str m) (str f) m f) by done.
    cbn [mbind option_bind step run]. rewrite sendMessage_sends by done. reflexivity.
  - split; reflexivity.
Qed.

(** The text field after sending.  A message that is sent empties the
    text field, and an input of nothing but white space is left as
    typed; either way a second click right after the first sends
    nothing more. *)
Theorem sendMessage_twice (st : state) :
  (trim (userInput_value st) <> [] -> userInput_value (sendMessage st) = [])
  /\ (trim (userInput_value st) = [] ->
      userInput_value (sendMessage st) = userInput_value st)
  /\ sendMessage (sendMessage st) = sendMessage st
  /\ run [click_sendButton; click_sendButton] st = run [click_sendButton] st.
Proof.
  assert (Hcleared : trim (userInput_value st) <> [] ->
                     userInput_value (sendMessage st) = []).
  { intros Hne. by rewrite sendMessage_sends. }
  assert (Hkept : trim (userInput_value st) = [] -> sendMessage st = st).
  { intros He. unfold sendMessage. by rewrite decide_True. }
  assert (Htwice : sendMessage (sendMessage st) = sendMessage st).
  { destruct (decide (trim (userInput_value st) = [])) as [He|Hne].
    - by rewrite !Hkept.
    - unfold sendMessage at 1. rewrite (Hcleared Hne). reflexivity. }
  split_and!; [done| |done|].
  - intros He. by rewrite Hkept.
  - simpl. by rewrite Htwice.
Qed.

(** An ok chat response, whatever the body says.  In a reachable state,
    when the parsed body has a [response] the chat box can show, one bot
    message with that text is appended: the empty text when the field is
    missing or [null].  When the body is the JSON [null], or its
    [response] does not print, the message appended is the connectivity
    text instead. *)
Theorem sendMessage_ok_any_body (st : state) (k d : nat) (data : jsval) :
  reachable st ->
  tasks st !! k = Some (sendMessage_await_data d) ->
  (forall response text,
     Get data (lit "response") = Ok response -> DOMString response = Ok text ->
     exists st',
       step (json_settles k (json_value data)) st = Some st'
       /\ chatBox st' = chatBox st ++ [Node (next_node st) bot text])
  /\ (forall e,
        (response ← Get data (lit "response"); DOMString response) = Throw e ->
        exists st',
          step (json_settles k (json_value data)) st = Some st'
          /\ chatBox st'
             = chatBox st ++ [Node (next_node st) bot connectivity_failure]).
Proof.
  intros Hr Hk. pose proof (reachable_wf st Hr) as (Hnd & Hlt & Ht).
  pose proof (Ht k _ Hk) as [Hd Hout]. simpl in Hd. split.
  - intros response text Hg Hs. eexists. split.
    + rewrite (step_json_settles st k _ _ Hk). unfold resume_json, sendMessage_data.
      rewrite Hg. cbn [mbind result_bind]. rewrite Hs. reflexivity.
    + done.
  - intros e He. eexists. split.
    + rewrite (step_json_settles st k _ _ Hk). unfold resume_json, sendMessage_data.
      rewrite He. reflexivity.
    + rewrite sendMessage_catch_chatBox. simpl. by rewrite remove_node_absent.
Qed.

(** ** What the two functions leave alone *)

Lemma remove_loading_upload_side (d : nat) (st : state) :
  upload_side (remove_loading d st) = upload_side st.
Proof. unfold remove_loading. by destruct (contains st d). Qed.

Lemma remove_loading_userInput_value (d : nat) (st : state) :
  userInput_value (remove_loading d st) = userInput_value st.
Proof. unfold remove_loading. by destruct (contains st d). Qed.

Lemma sendMessage_catch_upload_side (d : nat) (e : error) (st : state) :
  upload_side (sendMessage_catch d e st) = upload_side st.
Proof. exact (remove_loading_upload_side d st). Qed.

Lemma sendMessage_upload_side (st : state) :
  upload_side (sendMessage st) = upload_side st.
Proof. unfold sendMessage. by case_decide. Qed.

Lemma sendMessage_fetched_upload_side (d : nat) (r : fetch_result) (st : state) :
  upload_side (sendMessage_fetched d r st) = upload_side st.
Proof.
  destruct r as [e|status]; simpl; [apply sendMessage_catch_upload_side|].
  destruct (negb (ok status)); exact (remove_loading_upload_side d st).
Qed.

Lemma sendMessage_errorData_upload_side (d : nat) (status : N) (r : json_result)
    (st : state) :
  upload_side (sendMessage_errorData d status r st) = upload_side st.
Proof.
  unfold sendMessage_errorData.
  destruct (Get _ _); [|apply sendMessage_catch_upload_side].
  destruct (ToString _); [done|].
  by rewrite sendMessage_catch_upload_side.
Qed.

Lemma sendMessage_data_upload_side (d : nat) (r : json_result) (st : state) :
  upload_side (sendMessage_data d r st) = upload_side st.
Proof.
  destruct r as [e|data]; simpl; [apply sendMessage_catch_upload_side|].
  destruct (_ ≫= _); [done|apply sendMessage_catch_upload_side].
Qed.

Lemma uploadFile_data_userInput_value (r : json_result) (st : state) :
  userInput_value (uploadFile_data r st) = userInput_value st.
Proof.
  unfold uploadFile_data. destruct r as [e|data]; [done|].
  destruct (_ ≫= _); [|done].
  destruct (Get _ _); [|done]. by destruct (ToString _).
Qed.

Lemma sendMessage_errorData_network (d : nat) (status : N) (r : json_result)
    (st : state) :
  network (sendMessage_errorData d status r st) = network st.
Proof.
  unfold sendMessage_errorData.
  destruct (Get _ _); [|apply sendMessage_catch_quiet].
  destruct (ToString _); [done|].
  match goal with |- context [sendMessage_catch ?a ?b ?c] =>
    by rewrite (proj1 (sendMessage_catch_quiet a b c)) end.
Qed.

Lemma sendMessage_data_network (d : nat) (r : json_result) (st : state) :
  network (sendMessage_data d r st) = network st.
Proof.
  unfold sendMessage_data. destruct r as [e|data]; [apply sendMessage_catch_quiet|].
  destruct (_ ≫= _); [done|apply sendMessage_catch_quiet].
Qed.

Lemma sendMessage_fetched_network (d : nat) (r : fetch_result) (st : state) :
  network (sendMessage_fetched d r st) = network st.
Proof.
  unfold sendMessage_fetched. destruct r as [e|status]; [apply sendMessage_catch_quiet|].
  destruct (negb (ok status)); simpl; apply remove_loading_network.
Qed.

Lemma uploadFile_data_network (r : json_result) (st : state) :
  network (uploadFile_data r st) = network st.
Proof.
  unfold uploadFile_data. destruct r as [e|data]; [done|].
  destruct (_ ≫= _); [|done].
  destruct (Get _ _); [|done]. by destruct (ToString _).
Qed.

(** Chat and upload keep to their own side of the page.  No part of
    [sendMessage], on any path, touches the upload status, its timers,
    the file selection or the remembered file name; no part of
    [uploadFile] touches the text field, and none touches the chat box
    but the last, on the one path where it shows a success status and
    appends the confirmation: on every other path that part ends with an
    error status and the chat box as it was. *)
Theorem chat_and_upload_apart (st : state) (d : nat) (status : N)
    (rf : fetch_result) (rj : json_result) :
  (upload_side (sendMessage st) = upload_side st
   /\ upload_side (sendMessage_fetched d rf st) = upload_side st
   /\ upload_side (sendMessage_errorData d status rj st) = upload_side st
   /\ upload_side (sendMessage_data d rj st) = upload_side st)
  /\ (userInput_value (uploadFile st) = userInput_value st
      /\ userInput_value (uploadFile_fetched rf st) = userInput_value st
      /\ userInput_value (uploadFile_errorData status rj st) = userInput_value st
      /\ userInput_value (uploadFile_data rj st) = userInput_value st)
  /\ (chatBox (uploadFile st) = chatBox st
      /\ chatBox (uploadFile_fetched rf st) = chatBox st
      /\ chatBox (uploadFile_errorData status rj st) = chatBox st
      /\ ((exists data text name,
             rj = json_value data
             /\ (message ← Get data (lit "message"); DOMString message) = Ok text
             /\ (filename ← Get data (lit "filename"); ToString filename) = Ok name
             /\ uploadStatus_textContent (uploadFile_data rj st) = text
             /\ uploadStatus_className (uploadFile_data rj st)
                = lit "status-message success"
             /\ chatBox (uploadFile_data rj st)
                = chatBox st ++ [Node (next_node st) bot (upload_confirmation name)])
          \/ (chatBox (uploadFile_data rj st) = chatBox st
              /\ uploadStatus_className (uploadFile_data rj st)
                 = lit "status-message error"
              /\ forall data text name,
                   rj = json_value data ->
                   (message ← Get data (lit "message"); DOMString message) = Ok text ->
                   (filename ← Get data (lit "filename"); ToString filename)
                   <> Ok name))).
Proof.
  split; [|split].
  - split_and!.
    + apply sendMessage_upload_side.
    + apply sendMessage_fetched_upload_side.
    + apply sendMessage_errorData_upload_side.
    + apply sendMessage_data_upload_side.
  - split_and!.
    + unfold uploadFile. by destruct (csvFileInput_files st).
    + destruct rf as [e|s]; simpl; [done|]. by destruct (negb (ok s)).
    + done.
    + apply uploadFile_data_userInput_value.
  - split_and!.
    + unfold uploadFile. by destruct (csvFileInput_files st).
    + destruct rf as [e|s]; simpl; [done|]. by destruct (negb (ok s)).
    + done.
    + unfold uploadFile_data. destruct rj as [e|data].
      { right. split_and!; [done..|]. intros; discriminate. }
      destruct (_ ≫= _) as [text|e] eqn:Hm.
      2:{ right. split_and!; [done..|]. intros data' text' name' [= <-] H.
          by rewrite Hm in H. }
      destruct (Get data (lit "filename")) as [filename|e] eqn:Hf.
      2:{ right. split_and!; [done..|]. intros data' text' name' [= <-] _.
          rewrite Hf. discriminate. }
      destruct (ToString filename) as [name|e] eqn:Hn.
      * left. exists data, text, name. split_and!; try done.
        rewrite Hf. exact Hn.
      * right. split_and!; [done..|]. intros data' text' name' [= <-] _.
        rewrite Hf. cbn [mbind result_bind]. rewrite Hn. discriminate.
Qed.

(** No request without the user.  One turn of the event loop sends at
    most one request, and sends one only on a click on a button or on
    Enter in the text field: no answer, failure or timer ever makes the
    script send again. *)
Theorem requests_only_on_user_action (e : event) (st st' : state) :
  step e st = Some st' ->
  network st' = network st
  \/ exists r,
       network st' = network st ++ [r]
       /\ (e = click_sendButton \/ e = keypress_userInput (lit "Enter")
           \/ e = click_uploadButton).
Proof.
  assert (Hsend : network (sendMessage st) = network st
                  \/ exists r, network (sendMessage st) = network st ++ [r]).
  { destruct (decide (trim (userInput_value st) = [])) as [He|Hne].
    - left. unfold sendMessage. by rewrite decide_True.
    - right. rewrite sendMessage_sends by done. by eexists. }
  destruct e; simpl.
  - intros [= <-]. by left.
  - intros [= <-]. by left.
  - intros [= <-]. destruct Hsend as [?|[r ?]]; [by left|right; eauto].
  - intros [= <-]. case_decide as Hkey; [|by left]. subst key.
    destruct Hsend as [?|[r ?]]; [by left|right; eauto].
  - intros [= <-]. unfold uploadFile. destruct (csvFileInput_files st) as [|file ?].
    + by left.
    + right. exists (upload_request file). auto.
  - destruct (tasks st !! k) as [t|]; simpl; [|done].
    destruct t; cbn [resume_fetch]; try done; intros [= <-]; left.
    + by rewrite sendMessage_fetched_network.
    + destruct r as [e|status]; simpl; [done|]. by destruct (negb (ok status)).
  - destruct (tasks st !! k) as [t|]; simpl; [|done].
    destruct t; cbn [resume_json]; try done; intros [= <-]; left.
    + by rewrite sendMessage_errorData_network.
    + by rewrite sendMessage_data_network.
    + done.
    + by rewrite uploadFile_data_network.
  - destruct (timers st) as [|due rest]; [done|].
    destruct (due <=? clock st); [|done]. intros [= <-]. by left.
  - intros [= <-]. by left.
Qed.

(** No status without a timer.  If every status on display has a timer
    pending, then so it is after any run of events: whatever
    [setUploadStatus] shows, a timer is there to clear it. *)
Theorem status_always_has_timer (es : list event) (st st' : state) :
  status_has_timer st -> run es st = Some st' -> status_has_timer st'.
Proof.
  assert (Hside : forall s s', upload_side s' = upload_side s ->
                    status_has_timer s -> status_has_timer s').
  { unfold status_has_timer, upload_side. intros s s' [= -> _ -> _ _]. done. }
  assert (Hset : forall m t s, status_has_timer (setUploadStatus m t s)).
  { intros m t s. right. simpl. by destruct (timers s). }
  assert (Hcatch : forall e s, status_has_timer (uploadFile_catch e s)).
  { intros e s. right. simpl. by destruct (timers s). }
  assert (Hstep : forall e s s', status_has_timer s -> step e s = Some s' ->
                    status_has_timer s').
  { intros e s s' H. destruct e; simpl.
    - intros [= <-]. by apply (Hside s).
    - intros [= <-]. destruct H; [by left|by right].
    - intros [= <-]. apply (Hside s); [apply sendMessage_upload_side|done].
    - intros [= <-]. case_decide; [|done].
      apply (Hside s); [apply sendMessage_upload_side|done].
    - intros [= <-]. unfold uploadFile. destruct (csvFileInput_files s).
      + apply Hset.
      + right. simpl. by destruct (timers s).
    - destruct (tasks s !! k) as [t|]; simpl; [|done].
      destruct t; cbn [resume_fetch]; try done; intros [= <-].
      + apply (Hside s); [|done]. by rewrite sendMessage_fetched_upload_side.
      + destruct r as [e|status]; simpl; [apply Hcatch|].
        destruct (negb (ok status)); by apply (Hside s).
    - destruct (tasks s !! k) as [t|]; simpl; [|done].
      destruct t; cbn [resume_json]; try done; intros [= <-].
      + apply (Hside s); [|done]. by rewrite sendMessage_errorData_upload_side.
      + apply (Hside s); [|done]. by rewrite sendMessage_data_upload_side.
      + apply Hcatch.
      + unfold uploadFile_data. destruct r as [e|data]; [apply Hcatch|].
        destruct (_ ≫= _); [|apply Hcatch].
        destruct (Get _ _); [|apply Hcatch].
        destruct (ToString _); [|apply Hcatch].
        right. simpl. by destruct (timers s).
    - destruct (timers s) as [|due rest]; [done|].
      destruct (due <=? clock s); [|done]. intros [= <-]. by left.
    - intros [= <-]. by apply (Hside s). }
  revert st. induction es as [|e es IH]; simpl; intros st H.
  - by intros [= <-].
  - destruct (step e st) as [st1|] eqn:Hs; simpl; [|done].
    apply IH. by apply (Hstep e st).
Qed.

(** ** What [trim] keeps *)

Lemma trimStart_spec (s : jsstring) :
  exists a, s = a ++ trimStart s /\ Forall (fun c => is_whitespace c = true) a.
Proof.
  induction s as [|c s (a & Hs & Ha)]; simpl.
  - by exists [].
  - destruct (is_whitespace c) eqn:Hc.
    + exists (c :: a). split; [simpl; congruence|by constructor].
    + by exists [].
Qed.

Lemma trimStart_head (s : jsstring) (c : N) (r : jsstring) :
  trimStart s = c :: r -> is_whitespace c = false.
Proof.
  induction s as [|x s IH]; simpl; [done|].
  destruct (is_whitespace x) eqn:Hx; [done|]. by intros [= <- _].
Qed.

Lemma trimEnd_spec (s : jsstring) :
  exists b, s = trimEnd s ++ b /\ Forall (fun c => is_whitespace c = true) b.
Proof.
  destruct (trimStart_spec (rev s)) as (a & Hs & Ha).
  exists (rev a). split.
  - unfold trimEnd. rewrite <- rev_app_distr, <- Hs. by rewrite rev_involutive.
  - rewrite Forall_forall in Ha |- *. intros x Hx. apply Ha.
    apply list_elem_of_In. apply list_elem_of_In, in_rev in Hx. done.
Qed.

Lemma trimEnd_last (s r : jsstring) (c : N) :
  trimEnd s = r ++ [c] -> is_whitespace c = false.
Proof.
  unfold trimEnd. intros H. apply (f_equal (@rev N)) in H.
  rewrite rev_involutive, rev_app_distr in H. simpl in H.
  by apply trimStart_head in H.
Qed.

(** What is sent is the input without the white space around it.  The
    text of the text field is white space, then the message
    [sendMessage] works with, then white space; that message neither
    starts nor ends with white space; and [sendMessage] does nothing at
    all exactly when the text field holds nothing but white space. *)
Theorem sendMessage_sends_trimmed_text (st : state) :
  let message := trim (userInput_value st) in
  let blank := Forall (fun c => is_whitespace c = true) in
  (exists before behind,
     userInput_value st = before ++ message ++ behind /\ blank before /\ blank behind)
  /\ (forall c r, message = c :: r -> is_whitespace c = false)
  /\ (forall r c, message = r ++ [c] -> is_whitespace c = false)
  /\ (sendMessage st = st <-> blank (userInput_value st)).
Proof.
  intros message blank. subst blank.
  destruct (trimStart_spec (userInput_value st)) as (a & Hs & Ha).
  destruct (trimEnd_spec (trimStart (userInput_value st))) as (b & Ht & Hb).
  fold (trim (userInput_value st)) in Ht. fold message in Ht.
  assert (Hsplit : userInput_value st = a ++ message ++ b) by by rewrite <- Ht.
  assert (Hhead : forall c r, message = c :: r -> is_whitespace c = false).
  { intros c r Hm. rewrite Hm in Ht. simpl in Ht. by apply trimStart_head in Ht. }
  split_and!.
  - by exists a, b.
  - exact Hhead.
  - intros r c Hm. exact (trimEnd_last (trimStart (userInput_value st)) r c Hm).
  - split.
    + intros Hsame. destruct message as [|c r] eqn:Hm.
      * rewrite Hsplit. simpl. by apply Forall_app.
      * apply (f_equal network) in Hsame. rewrite sendMessage_sends in Hsame.
        -- simpl in Hsame. apply (f_equal length) in Hsame.
           rewrite length_app in Hsame. simpl in Hsame. lia.
        -- fold message. by rewrite Hm.
    + intros Hblank. unfold sendMessage. fold message.
      destruct message as [|c r] eqn:Hm; [by rewrite decide_True|].
      pose proof (Hhead c r eq_refl) as Hc.
      rewrite Hsplit in Hblank.
      apply Forall_app in Hblank as [_ Hblank]. simpl in Hblank.
      apply Forall_cons in Hblank as [Hc' _]. congruence.
Qed.

(** ** The placeholder while the request is out *)

Lemma remove_node_keeps (d : nat) (n : node) (l : list node) :
  n ∈ l -> node_id n <> d -> n ∈ remove_node d l.
Proof.
  induction l as [|x l IH]; simpl; [done|].
  rewrite elem_of_cons. intros [->|Hin] Hne.
  - rewrite decide_False by done. by left.
  - destruct (decide (node_id x = d)); [done|]. right. auto.
Qed.

Lemma placeholders_same (st st' : state) :
  chatBox st' = chatBox st -> tasks st' = tasks st ->
  placeholders_shown st -> placeholders_shown st'.
Proof. unfold placeholders_shown. by intros -> ->. Qed.

Lemma placeholders_addMessage (message : jsstring) (s : sender) (st : state) :
  placeholders_shown st -> placeholders_shown (addMessage message s st).
Proof.
  intros [Hshown Huniq]. split; [|exact Huniq].
  intros k d Hk. simpl. apply elem_of_app. left. by apply (Hshown k).
Qed.

Lemma placeholders_delete (k : nat) (st : state) :
  placeholders_shown st -> placeholders_shown (with_tasks (delete k) st).
Proof.
  intros [Hshown Huniq]. split; simpl.
  - intros k' d [_ Hk]%lookup_delete_Some. by apply (Hshown k').
  - intros k1 k2 d [_ H1]%lookup_delete_Some [_ H2]%lookup_delete_Some.
    by apply (Huniq k1 k2 d).
Qed.

Lemma placeholders_suspend_other (t : task) (st : state) :
  (forall d, t <> sendMessage_await_fetch d) ->
  placeholders_shown st -> placeholders_shown (suspend t st).
Proof.
  intros Ht [Hshown Huniq]. split; simpl.
  - intros k d. rewrite lookup_insert. case_decide; [intros [= ->]; by destruct (Ht d)|].
    apply Hshown.
  - intros k1 k2 d. rewrite !lookup_insert.
    case_decide; [intros [= ->]; by destruct (Ht d)|].
    case_decide; [intros _ [= ->]; by destruct (Ht d)|].
    apply Huniq.
Qed.

Lemma placeholders_suspend_fetch (d : nat) (st : state) :
  Node d bot typing ∈ chatBox st ->
  (forall k, tasks st !! k <> Some (sendMessage_await_fetch d)) ->
  placeholders_shown st -> placeholders_shown (suspend (sendMessage_await_fetch d) st).
Proof.
  intros Hin Hnone [Hshown Huniq]. split; simpl.
  - intros k d'. rewrite lookup_insert. case_decide; [by intros [= <-]|apply Hshown].
  - intros k1 k2 d'. rewrite !lookup_insert.
    case_decide as H1; case_decide as H2.
    + congruence.
    + intros [= <-] Hk2. by destruct (Hnone k2).
    + intros Hk1 [= <-]. by destruct (Hnone k1).
    + apply Huniq.
Qed.

Lemma placeholders_remove_loading (d : nat) (st : state) :
  (forall k, tasks st !! k <> Some (sendMessage_await_fetch d)) ->
  placeholders_shown st -> placeholders_shown (remove_loading d st).
Proof.
  intros Hnone [Hshown Huniq]. split; rewrite remove_loading_tasks.
  - intros k d' Hk. rewrite remove_loading_chatBox.
    apply remove_node_keeps; [by apply (Hshown k)|].
    simpl. intros ->. by destruct (Hnone k).
  - exact Huniq.
Qed.

Lemma placeholders_sendMessage_catch (d : nat) (e : error) (st : state) :
  (forall k, tasks st !! k <> Some (sendMessage_await_fetch d)) ->
  placeholders_shown st -> placeholders_shown (sendMessage_catch d e st).
Proof.
  intros Hnone H. unfold sendMessage_catch. apply placeholders_addMessage.
  eapply placeholders_same; [| |apply (placeholders_remove_loading d st Hnone H)]; done.
Qed.

Lemma placeholders_sendMessage (st : state) :
  wf st -> placeholders_shown st -> placeholders_shown (sendMessage st).
Proof.
  intros (_ & _ & Ht) H.
  destruct (decide (trim (userInput_value st) = [])) as [He|Hne].
  - unfold sendMessage. by rewrite decide_True.
  - rewrite sendMessage_sends by done. cbv zeta.
    apply placeholders_suspend_fetch.
    + simpl. rewrite !elem_of_app. right. by apply list_elem_of_singleton.
    + simpl. intros k Hk. apply Ht in Hk. simpl in Hk. lia.
    + set (st1 := addMessage (trim (userInput_value st)) user st).
      assert (H1 : placeholders_shown st1) by by apply placeholders_addMessage.
      assert (H2 : placeholders_shown (with_userInput_value [] st1))
        by (eapply placeholders_same; [| |exact H1]; done).
      assert (H3 : placeholders_shown (addMessage typing bot (with_userInput_value [] st1)))
        by by apply placeholders_addMessage.
      eapply placeholders_same; [| |exact H3]; done.
Qed.

Lemma placeholders_uploadFile_data (r : json_result) (st : state) :
  placeholders_shown st -> placeholders_shown (uploadFile_data r st).
Proof.
  intros H. unfold uploadFile_data. destruct r as [e|data].
  { eapply placeholders_same; [| |exact H]; done. }
  destruct (_ ≫= _); [|eapply placeholders_same; [| |exact H]; done].
  destruct (Get _ _); [|eapply placeholders_same; [| |exact H]; done].
  destruct (ToString _); [|eapply placeholders_same; [| |exact H]; done].
  match goal with
  | |- placeholders_shown (console_write _ _ (addMessage ?m bot ?s1)) =>
      assert (H1 : placeholders_shown s1)
        by (eapply placeholders_same; [| |exact H]; done);
      apply (placeholders_addMessage m bot) in H1;
      eapply placeholders_same; [| |exact H1]; done
  end.
Qed.

Lemma placeholders_step (e : event) (st st' : state) :
  wf st -> placeholders_shown st -> step e st = Some st' -> placeholders_shown st'.
Proof.
  intros Hwf H. destruct e; simpl.
  - intros [= <-]. eapply placeholders_same; [| |exact H]; done.
  - intros [= <-]. eapply placeholders_same; [| |exact H]; done.
  - intros [= <-]. by apply placeholders_sendMessage.
  - intros [= <-]. case_decide; [by apply placeholders_sendMessage|done].
  - intros [= <-]. unfold uploadFile. destruct (csvFileInput_files st).
    + eapply placeholders_same; [| |exact H]; done.
    + apply placeholders_suspend_other; [done|].
      eapply placeholders_same; [| |exact H]; done.
  - destruct (tasks st !! k) as [t|] eqn:Hk; simpl; [|done].
    pose proof (placeholders_delete k st H) as Hd.
    destruct t; cbn [resume_fetch]; try done; intros [= <-].
    + assert (Hnone : forall k', tasks (with_tasks (delete k) st) !! k'
                        <> Some (sendMessage_await_fetch loadingMessageDiv)).
      { simpl. intros k' [Hne Hk']%lookup_delete_Some.
        by destruct Hne, (proj2 H k k' loadingMessageDiv). }
      unfold sendMessage_fetched. destruct r as [e|status].
      * by apply placeholders_sendMessage_catch.
      * destruct (negb (ok status)); (apply placeholders_suspend_other; [done|]);
          by apply placeholders_remove_loading.
    + unfold uploadFile_fetched. destruct r as [e|status].
      * eapply placeholders_same; [| |exact Hd]; done.
      * destruct (negb (ok status)); by apply placeholders_suspend_other.
  - destruct (tasks st !! k) as [t|] eqn:Hk; simpl; [|done].
    pose proof (placeholders_delete k st H) as Hd.
    assert (Hgone : forall d, d ∉ ids st ->
              forall k', tasks (with_tasks (delete k) st) !! k'
                         <> Some (sendMessage_await_fetch d)).
    { simpl. intros d Hout k' [_ Hk']%lookup_delete_Some.
      apply Hout. apply (proj1 H) in Hk'. unfold ids.
      apply list_elem_of_fmap. by exists (Node d bot typing). }
    destruct t; cbn [resume_json]; try done; intros [= <-].
    + destruct (proj2 (proj2 Hwf) k _ Hk) as [_ Hout].
      unfold sendMessage_errorData. destruct (Get _ _).
      * destruct (ToString _).
        -- apply placeholders_addMessage. eapply placeholders_same; [| |exact Hd]; done.
        -- apply placeholders_sendMessage_catch; [by apply Hgone|].
           eapply placeholders_same; [| |exact Hd]; done.
      * apply placeholders_sendMessage_catch; [by apply Hgone|done].
    + destruct (proj2 (proj2 Hwf) k _ Hk) as [_ Hout].
      unfold sendMessage_data. destruct r as [e|data].
      * apply placeholders_sendMessage_catch; [by apply Hgone|done].
      * destruct (_ ≫= _); [by apply placeholders_addMessage|].
        apply placeholders_sendMessage_catch; [by apply Hgone|done].
    + eapply placeholders_same; [| |exact Hd]; done.
    + by apply placeholders_uploadFile_data.
  - destruct (timers st) as [|due rest]; [done|].
    destruct (due <=? clock st); [|done].
    intros [= <-]. eapply placeholders_same; [| |exact H]; done.
  - intros [= <-]. eapply placeholders_same; [| |exact H]; done.
Qed.

Lemma reachable_placeholders (st : state) : reachable st -> placeholders_shown st.
Proof.
  induction 1 as [page (_ & _ & Ht & _)|st e st' Hr IH Hs].
  - apply placeholders_addMessage. split; simpl; intros *; rewrite Ht;
      by rewrite lookup_empty.
  - apply (placeholders_step e st); [by apply reachable_wf|done..].
Qed.


(** ** The transcript only grows *)

Lemma filter_remove_placeholder (d : nat) (l : list node) :
  NoDup (node_id <$> l) -> Node d bot typing ∈ l ->
  filter (fun n => ~ is_placeholder n) (remove_node d l)
  = filter (fun n => ~ is_placeholder n) l.
Proof.
  induction l as [|n l IH]; simpl; [done|].
  rewrite NoDup_cons, elem_of_cons. intros [Hn Hnd] Hin.
  destruct (decide (node_id n = d)) as [Hd|Hd].
  - assert (n = Node d bot typing) as ->.
    { destruct Hin as [<-|Hin]; [done|]. destruct Hn. rewrite Hd.
      apply list_elem_of_fmap. by exists (Node d bot typing). }
    rewrite filter_cons. rewrite decide_False; [done|].
    intros Hno. by apply Hno.
  - destruct Hin as [Hin|Hin]; [by subst n|].
    rewrite !filter_cons. destruct (decide _); by rewrite IH.
Qed.

Lemma transcript_same (st st' : state) :
  chatBox st' = chatBox st -> transcript st' = transcript st.
Proof. unfold transcript. by intros ->. Qed.

Lemma transcript_addMessage (message : jsstring) (s : sender) (st st1 : state) :
  transcript st `prefix_of` transcript st1 ->
  transcript st `prefix_of` transcript (addMessage message s st1).
Proof.
  intros H. etrans; [exact H|]. unfold transcript. simpl. rewrite filter_app.
  by apply prefix_app_r.
Qed.

Lemma transcript_remove_loading (d : nat) (st : state) :
  NoDup (ids st) -> d ∉ ids st \/ Node d bot typing ∈ chatBox st ->
  transcript (remove_loading d st) = transcript st.
Proof.
  intros Hnd [Hout|Hin].
  - by rewrite remove_loading_absent.
  - unfold transcript. rewrite remove_loading_chatBox.
    by apply filter_remove_placeholder.
Qed.

Ltac transcript_skip :=
  match goal with
  | |- _ `prefix_of` transcript (?f ?s1) =>
      rewrite (transcript_same s1 (f s1)) by reflexivity
  end.

Lemma transcript_sendMessage_catch (d : nat) (e : error) (st0 st : state) :
  NoDup (ids st) -> d ∉ ids st \/ Node d bot typing ∈ chatBox st ->
  transcript st0 `prefix_of` transcript st ->
  transcript st0 `prefix_of` transcript (sendMessage_catch d e st).
Proof.
  intros Hnd Hd H. unfold sendMessage_catch. apply transcript_addMessage.
  transcript_skip. by rewrite transcript_remove_loading.
Qed.

Lemma transcript_step (e : event) (st st' : state) :
  wf st -> placeholders_shown st -> step e st = Some st' ->
  transcript st `prefix_of` transcript st'.
Proof.
  intros (Hnd & Hlt & Ht) [Hshown _].
  assert (Hsame : forall s, chatBox s = chatBox st ->
                    transcript st `prefix_of` transcript s).
  { intros s Hs. by rewrite (transcript_same st s). }
  destruct e; simpl.
  - intros [= <-]. by apply Hsame.
  - intros [= <-]. by apply Hsame.
  - intros [= <-]. destruct (decide (trim (userInput_value st) = [])) as [He|Hne].
    + unfold sendMessage. by rewrite decide_True.
    + rewrite sendMessage_sends by done. cbv zeta.
      transcript_skip.
      apply transcript_addMessage. transcript_skip.
      by apply transcript_addMessage.
  - intros [= <-]. case_decide; [|done].
    destruct (decide (trim (userInput_value st) = [])) as [He|Hne].
    + unfold sendMessage. by rewrite decide_True.
    + rewrite sendMessage_sends by done. cbv zeta.
      transcript_skip.
      apply transcript_addMessage. transcript_skip.
      by apply transcript_addMessage.
  - intros [= <-]. unfold uploadFile. destruct (csvFileInput_files st); by apply Hsame.
  - destruct (tasks st !! k) as [t|] eqn:Hk; simpl; [|done].
    destruct t; cbn [resume_fetch]; try done; intros [= <-].
    + pose proof (Hshown k _ Hk) as Hin.
      unfold sendMessage_fetched. destruct r as [e|status].
      * apply transcript_sendMessage_catch; [done|by right|by apply Hsame].
      * destruct (negb (ok status)); transcript_skip;
          by rewrite transcript_remove_loading by (done || by right).
    + unfold uploadFile_fetched. destruct r as [e|status]; [by apply Hsame|].
      destruct (negb (ok status)); by apply Hsame.
  - destruct (tasks st !! k) as [t|] eqn:Hk; simpl; [|done].
    destruct t; cbn [resume_json]; try done; intros [= <-].
    + destruct (Ht k _ Hk) as [_ Hout].
      unfold sendMessage_errorData. destruct (Get _ _).
      * destruct (ToString _).
        -- apply transcript_addMessage. by apply Hsame.
        -- apply transcript_sendMessage_catch; [done|by left|by apply Hsame].
      * apply transcript_sendMessage_catch; [done|by left|by apply Hsame].
    + destruct (Ht k _ Hk) as [_ Hout].
      unfold sendMessage_data. destruct r as [e|data].
      * apply transcript_sendMessage_catch; [done|by left|by apply Hsame].
      * destruct (_ ≫= _).
        -- apply transcript_addMessage. by apply Hsame.
        -- apply transcript_sendMessage_catch; [done|by left|by apply Hsame].
    + by apply Hsame.
    + unfold uploadFile_data. destruct r as [e|data]; [by apply Hsame|].
      destruct (_ ≫= _); [|by apply Hsame].
      destruct (Get _ _); [|by apply Hsame].
      destruct (ToString _); [|by apply Hsame].
      transcript_skip.
      apply transcript_addMessage. by apply Hsame.
  - destruct (timers st) as [|due rest]; [done|].
    destruct (due <=? clock st); [|done].
    intros [= <-]. by apply Hsame.
  - intros [= <-]. by apply Hsame.
Qed.

(** The transcript only grows.  From a reachable state on, whatever
    events come, the messages of the chat box (all its elements but the
    typing placeholders) stay where they are and as they are: new ones
    are appended, and the only elements ever taken out are typing
    placeholders. *)
Theorem transcript_only_grows (es : list event) (st st' : state) :
  reachable st -> run es st = Some st' ->
  transcript st `prefix_of` transcript st'.
Proof.
  revert st. induction es as [|e es IH]; simpl; intros st Hr.
  - by intros [= <-].
  - destruct (step e st) as [st1|] eqn:Hs; simpl; [|done].
    intros Hrun. etrans.
    + apply (transcript_step e st st1);
        [by apply reachable_wf|by apply reachable_placeholders|done].
    + apply IH; [by apply (reachable_step st e)|done].
Qed.

(** ** Invocations do not disturb each other *)

Lemma still_waiting_refl (st : state) : still_waiting st st.
Proof. split; [lia|auto]. Qed.

Lemma still_waiting_same (st st1 st2 : state) :
  tasks st2 = tasks st1 -> next_task st2 = next_task st1 ->
  still_waiting st st1 -> still_waiting st st2.
Proof. unfold still_waiting. by intros -> ->. Qed.

Lemma still_waiting_suspend (t : task) (st st1 : state) :
  still_waiting st st1 -> still_waiting st (suspend t st1).
Proof.
  intros [Hle H]. split; simpl; [lia|].
  intros k t' Hk Hl. rewrite lookup_insert_ne by lia. auto.
Qed.

Lemma still_waiting_remove_loading (d : nat) (st st1 : state) :
  still_waiting st st1 -> still_waiting st (remove_loading d st1).
Proof.
  apply still_waiting_same; [apply remove_loading_tasks|apply remove_loading_next_task].
Qed.

Ltac still_waiting_step :=
  cbv zeta;
  lazymatch goal with
  | |- still_waiting _ (suspend _ _) => apply still_waiting_suspend
  | |- still_waiting _ (remove_loading _ _) => apply still_waiting_remove_loading
  | |- still_waiting _ (?f ?st1) =>
      apply (still_waiting_same _ st1); [reflexivity | reflexivity | ]
  end.

Ltac still_waiting_all := repeat still_waiting_step; apply still_waiting_refl.

Lemma still_waiting_sendMessage_catch (d : nat) (e : error) (st : state) :
  still_waiting st (sendMessage_catch d e st).
Proof. unfold sendMessage_catch. still_waiting_all. Qed.

Lemma still_waiting_sendMessage (st : state) : still_waiting st (sendMessage st).
Proof.
  destruct (decide (trim (userInput_value st) = [])) as [He|Hne].
  - unfold sendMessage. rewrite decide_True by done. apply still_waiting_refl.
  - rewrite sendMessage_sends by done. still_waiting_all.
Qed.

Lemma still_waiting_resume_fetch (t : task) (r : fetch_result) (st st' : state) :
  resume_fetch t r st = Some st' -> still_waiting st st'.
Proof.
  destruct t; cbn [resume_fetch]; try done; intros [= <-].
  - unfold sendMessage_fetched. destruct r as [e|status].
    + apply still_waiting_sendMessage_catch.
    + destruct (negb (ok status)); still_waiting_all.
  - unfold uploadFile_fetched, uploadFile_catch. destruct r as [e|status].
    + still_waiting_all.
    + destruct (negb (ok status)); still_waiting_all.
Qed.

Lemma still_waiting_resume_json (t : task) (r : json_result) (st st' : state) :
  resume_json t r st = Some st' -> still_waiting st st'.
Proof.
  destruct t; cbn [resume_json]; try done; intros [= <-].
  - unfold sendMessage_errorData. destruct (Get _ _).
    + destruct (ToString _); [still_waiting_all|].
      unfold sendMessage_catch. still_waiting_all.
    + apply still_waiting_sendMessage_catch.
  - unfold sendMessage_data. destruct r as [e|data].
    + apply still_waiting_sendMessage_catch.
    + destruct (_ ≫= _); [still_waiting_all|apply still_waiting_sendMessage_catch].
  - unfold uploadFile_errorData, uploadFile_catch. still_waiting_all.
  - unfold uploadFile_data, uploadFile_catch. destruct r as [e|data].
    + still_waiting_all.
    + destruct (_ ≫= _); [|still_waiting_all].
      destruct (Get _ _); [|still_waiting_all].
      destruct (ToString _); still_waiting_all.
Qed.

(** Invocations do not disturb each other.  In a reachable state, an
    invocation that waits for an answer goes on waiting, with the same
    local variables, through every event but the settling of its own
    promise: no click, no timer and no answer to another request cancels
    or changes it. *)
Theorem invocations_independent (e : event) (st st' : state) (k : nat) (t : task) :
  reachable st ->
  tasks st !! k = Some t ->
  (forall r, e <> fetch_settles k r) -> (forall r, e <> json_settles k r) ->
  step e st = Some st' ->
  tasks st' !! k = Some t.
Proof.
  intros Hr Hk Hf Hj. pose proof (reachable_fresh_keys st Hr k t Hk) as Hlt.
  assert (Hkeep : forall s, still_waiting st s -> tasks s !! k = Some t).
  { intros s [_ H]. by apply H. }
  destruct e; simpl.
  - intros [= <-]. done.
  - intros [= <-]. done.
  - intros [= <-]. apply Hkeep, still_waiting_sendMessage.
  - intros [= <-]. case_decide; [apply Hkeep, still_waiting_sendMessage|done].
  - intros [= <-]. apply Hkeep. unfold uploadFile.
    destruct (csvFileInput_files st); still_waiting_all.
  - destruct (decide (k0 = k)) as [->|Hne]; [by destruct (Hf r)|].
    destruct (tasks st !! k0) as [t0|]; simpl; [|done].
    intros [_ H]%still_waiting_resume_fetch. apply H; [done|].
    simpl. by rewrite lookup_delete_ne.
  - destruct (decide (k0 = k)) as [->|Hne]; [by destruct (Hj r)|].
    destruct (tasks st !! k0) as [t0|]; simpl; [|done].
    intros [_ H]%still_waiting_resume_json. apply H; [done|].
    simpl. by rewrite lookup_delete_ne.
  - destruct (timers st) as [|due rest]; [done|].
    destruct (due <=? clock st); [|done]. intros [= <-]. done.
  - intros [= <-]. done.
Qed.

(** ** A whole exchange *)

Lemma remove_node_last (d : nat) (a : node) (s : sender) (text : jsstring)
    (l : list node) :
  d ∉ node_id <$> l -> node_id a <> d ->
  remove_node d (l ++ [a; Node d s text]) = l ++ [a].
Proof.
  intros Hl Ha. induction l as [|n l IH]; simpl.
  - rewrite decide_False by done. simpl. by rewrite decide_True.
  - simpl in Hl. apply not_elem_of_cons in Hl as [Hn Hl].
    rewrite decide_False by done. by rewrite IH.
Qed.

Lemma free_keys (st : state) (k : nat) :
  fresh_keys st -> (next_task st <= k)%nat -> tasks st !! k = None.
Proof.
  intros H Hk. destruct (tasks st !! k) as [t|] eqn:E; [|done].
  apply H in E. lia.
Qed.

(** A whole exchange.  From a reachable state, when the user types a
    message that is not blank and sends it, and nothing else happens
    until the request has run its course, the chat box ends up with two
    elements more: the question, and one bot message, which is the
    connectivity text if [fetch] was rejected, and the reply or an error
    text otherwise.  The placeholder is gone, and the invocations that
    wait are those that waited before. *)
Theorem exchange_leaves_question_and_answer (st : state) (input : jsstring) :
  reachable st -> trim input <> [] ->
  let question := Node (next_node st) user (trim input) in
  let answer := Node (S (S (next_node st))) bot in
  (forall e, exists st',
     run [user_types input; click_sendButton;
          fetch_settles (next_task st) (fetch_rejected e)] st = Some st'
     /\ chatBox st' = chatBox st ++ [question; answer connectivity_failure]
     /\ tasks st' = tasks st)
  /\ (forall status r, exists st' text,
        run [user_types input; click_sendButton;
             fetch_settles (next_task st) (fetch_response status);
             json_settles (S (next_task st)) r] st = Some st'
        /\ chatBox st' = chatBox st ++ [question; answer text]
        /\ tasks st' = tasks st).
Proof.
  intros Hr Hne question answer.
  pose proof (reachable_wf st Hr) as (Hnd & Hlt & _).
  pose proof (reachable_fresh_keys st Hr) as Hfresh.
  assert (Hout : S (next_node st) ∉ ids st).
  { intros Hin. rewrite Forall_forall in Hlt. apply Hlt in Hin. lia. }
  assert (Hfree : tasks st !! next_task st = None) by by apply free_keys.
  set (s0 := with_userInput_value input st).
  set (s1 := sendMessage s0).
  assert (E1 : s1 = suspend (sendMessage_await_fetch (S (next_node st)))
                 (fetch (chat_request (trim input) (lastUploadedFileName st))
                    (addMessage typing bot
                       (with_userInput_value []
                          (addMessage (trim input) user s0)))))
    by (unfold s1; by rewrite sendMessage_sends).
  assert (Hc1 : chatBox s1 = chatBox st ++ [question; Node (S (next_node st)) bot typing]).
  { rewrite E1. simpl. by rewrite <- app_assoc. }
  assert (Hk1 : tasks s1 !! next_task st = Some (sendMessage_await_fetch (S (next_node st)))).
  { rewrite E1. simpl. by rewrite lookup_insert_eq. }
  assert (Hs0 : step (user_types input) st = Some s0) by reflexivity.
  assert (Hs1 : step click_sendButton s0 = Some s1) by reflexivity.
  set (s2 := with_tasks (delete (next_task st)) s1).
  assert (Ht2 : tasks s2 = tasks st).
  { unfold s2. rewrite E1. simpl. by rewrite delete_insert_id. }
  assert (Hrem : remove_node (S (next_node st)) (chatBox s2) = chatBox st ++ [question]).
  { unfold s2. simpl. rewrite Hc1. apply remove_node_last; [done|simpl; lia]. }
  assert (Hn2 : next_node s2 = S (S (next_node st))) by (unfold s2; by rewrite E1).
  assert (Hnt2 : next_task s2 = S (next_task st)) by (unfold s2; by rewrite E1).
  split.
  - intros e. exists (sendMessage_catch (S (next_node st)) e s2). split_and!.
    + cbn [run]. rewrite Hs0. cbn [mbind option_bind]. rewrite Hs1.
      cbn [mbind option_bind]. by rewrite (step_fetch_settles s1 _ _ _ Hk1).
    + rewrite sendMessage_catch_chatBox, Hrem, Hn2. by rewrite <- app_assoc.
    + unfold sendMessage_catch. simpl. by rewrite remove_loading_tasks.
  - intros status r.
    set (waits := if negb (ok status)
                  then sendMessage_await_errorData (S (next_node st)) status
                  else sendMessage_await_data (S (next_node st))).
    set (s3 := suspend waits (remove_loading (S (next_node st)) s2)).
    assert (E3 : sendMessage_fetched (S (next_node st)) (fetch_response status) s2 = s3).
    { unfold sendMessage_fetched, s3, waits. by destruct (negb (ok status)). }
    assert (Hk3 : tasks s3 !! S (next_task st) = Some waits).
    { unfold s3. simpl. rewrite remove_loading_next_task, Hnt2.
      by rewrite lookup_insert_eq. }
    set (s4 := with_tasks (delete (S (next_task st))) s3).
    assert (Hc4 : chatBox s4 = chatBox st ++ [question]).
    { unfold s4, s3. simpl. by rewrite remove_loading_chatBox. }
    assert (Ht4 : tasks s4 = tasks st).
    { unfold s4, s3. simpl. rewrite remove_loading_next_task, remove_loading_tasks, Hnt2, Ht2.
      apply delete_insert_id. apply free_keys; [done|lia]. }
    assert (Hn4 : next_node s4 = S (S (next_node st))).
    { unfold s4, s3. simpl. by rewrite remove_loading_next_node. }
    assert (Hout4 : S (next_node st) ∉ ids s4).
    { unfold ids. rewrite Hc4. apply not_in_appended; [done|simpl; lia]. }
    assert (Hlast : exists st' text,
              resume_json waits r s4 = Some st'
              /\ chatBox st' = chatBox s4 ++ [Node (next_node s4) bot text]
              /\ tasks st' = tasks s4).
    { unfold waits. destruct (negb (ok status)); cbn [resume_json].
      - destruct (sendMessage_errorData_appends (S (next_node st)) status r s4 Hout4)
          as (text & ? & ?). by eexists _, text.
      - destruct (sendMessage_data_appends (S (next_node st)) r s4 Hout4)
          as (text & ? & ?). by eexists _, text. }
    destruct Hlast as (st' & text & Hs & Hc & Ht).
    exists st', text. split_and!.
    + cbn [run]. rewrite Hs0. cbn [mbind option_bind]. rewrite Hs1.
      cbn [mbind option_bind]. rewrite (step_fetch_settles s1 _ _ _ Hk1).
      cbn [resume_fetch]. fold s2. rewrite E3. cbn [mbind option_bind].
      rewrite (step_json_settles s3 _ _ _ Hk3). fold s4. by rewrite Hs.
    + rewrite Hc, Hc4, Hn4. by rewrite <- app_assoc.
    + by rewrite Ht.
Qed.


(** ** Before the first upload *)

Lemma no_upload_yet_same (st st' : state) :
  upload_side st' = upload_side st -> tasks st' = tasks st ->
  no_upload_yet st -> no_upload_yet st'.
Proof. unfold no_upload_yet, upload_side. by intros [= _ _ _ _ ->] ->. Qed.

Lemma no_upload_yet_suspend (t : task) (st : state) :
  chat_task t -> no_upload_yet st -> no_upload_yet (suspend t st).
Proof.
  intros Ht [Hn H]. split; [done|]. simpl. intros k t'. rewrite lookup_insert.
  case_decide; [by intros [= <-]|apply H].
Qed.

Lemma no_upload_yet_delete (k : nat) (st : state) :
  no_upload_yet st -> no_upload_yet (with_tasks (delete k) st).
Proof.
  intros [Hn H]. split; [done|]. simpl.
  intros k' t [_ Hk]%lookup_delete_Some. by apply (H k').
Qed.

Lemma no_upload_yet_sendMessage_catch (d : nat) (e : error) (st : state) :
  no_upload_yet st -> no_upload_yet (sendMessage_catch d e st).
Proof.
  apply no_upload_yet_same; [apply sendMessage_catch_upload_side|].
  unfold sendMessage_catch. simpl. apply remove_loading_tasks.
Qed.

Lemma no_upload_yet_sendMessage (st : state) :
  no_upload_yet st -> no_upload_yet (sendMessage st).
Proof.
  intros H. destruct (decide (trim (userInput_value st) = [])) as [He|Hne].
  - unfold sendMessage. by rewrite decide_True.
  - rewrite sendMessage_sends by done. cbv zeta.
    apply no_upload_yet_suspend; [done|].
    eapply no_upload_yet_same; [| |exact H]; done.
Qed.

Lemma no_upload_yet_step (e : event) (st st' : state) :
  e <> click_uploadButton ->
  no_upload_yet st -> step e st = Some st' -> no_upload_yet st'.
Proof.
  intros He H. destruct e; simpl; try done.
  - intros [= <-]. eapply no_upload_yet_same; [| |exact H]; done.
  - intros [= <-]. destruct H as [Hn H]. by split.
  - intros [= <-]. by apply no_upload_yet_sendMessage.
  - intros [= <-]. case_decide; [by apply no_upload_yet_sendMessage|done].
  - destruct (tasks st !! k) as [t|] eqn:Hk; simpl; [|done].
    pose proof (proj2 H k t Hk) as Ht.
    pose proof (no_upload_yet_delete k st H) as Hd.
    destruct t; cbn [resume_fetch]; try done; intros [= <-].
    unfold sendMessage_fetched. destruct r as [e|status].
    + by apply no_upload_yet_sendMessage_catch.
    + destruct (negb (ok status)); (apply no_upload_yet_suspend; [done|]);
        (eapply no_upload_yet_same; [| |exact Hd]);
        by rewrite ?remove_loading_upload_side, ?remove_loading_tasks.
  - destruct (tasks st !! k) as [t|] eqn:Hk; simpl; [|done].
    pose proof (proj2 H k t Hk) as Ht.
    pose proof (no_upload_yet_delete k st H) as Hd.
    destruct t; cbn [resume_json]; try done; intros [= <-].
    + unfold sendMessage_errorData. destruct (Get _ _).
      * destruct (ToString _).
        -- eapply no_upload_yet_same; [| |exact Hd]; done.
        -- apply no_upload_yet_sendMessage_catch.
           eapply no_upload_yet_same; [| |exact Hd]; done.
      * by apply no_upload_yet_sendMessage_catch.
    + unfold sendMessage_data. destruct r as [e|data].
      * by apply no_upload_yet_sendMessage_catch.
      * destruct (_ ≫= _); [|by apply no_upload_yet_sendMessage_catch].
        eapply no_upload_yet_same; [| |exact Hd]; done.
  - destruct (timers st) as [|due rest]; [done|].
    destruct (due <=? clock st); [|done].
    intros [= <-]. destruct H as [Hn H]. by split.
  - intros [= <-]. eapply no_upload_yet_same; [| |exact H]; done.
Qed.

(** Before the first upload.  On a fresh page, as long as the user has
    not clicked the upload button, no file name is remembered, whatever
    else happens: every message sent goes out with [last_uploaded_file]
    set to [null]. *)
Theorem no_file_name_before_upload (page : state) (es : list event) (st : state) :
  fresh_page page ->
  Forall (fun e => e <> click_uploadButton) es ->
  run es (DOMContentLoaded page) = Some st ->
  lastUploadedFileName st = null
  /\ (trim (userInput_value st) <> [] ->
      network (sendMessage st)
      = network st ++ [chat_request (trim (userInput_value st)) null]
      /\ request_body (chat_request (trim (userInput_value st)) null)
         = json_body (object [(lit "message", str (trim (userInput_value st)));
                              (lit "last_uploaded_file", null)])).
Proof.
  intros (_ & _ & Ht & _) Hes Hrun.
  assert (H0 : no_upload_yet (DOMContentLoaded page)).
  { split; [done|]. simpl. intros k t. rewrite Ht. by rewrite lookup_empty. }
  assert (H : no_upload_yet st).
  { revert Hrun H0. generalize (DOMContentLoaded page).
    induction Hes as [|e es He _ IH]; simpl; intros s.
    - by intros [= <-].
    - destruct (step e s) as [s1|] eqn:Hs; simpl; [|done].
      intros Hrun H0. apply (IH s1 Hrun). by apply (no_upload_yet_step e s). }
  destruct H as [Hnull _]. split; [done|].
  intros Hne. rewrite sendMessage_sends by done. simpl. rewrite Hnull. done.
Qed.

End Properties.

(** ** Examples *)

Section Examples.

#[local] Existing Instance V8.

Lemma reachable_after (es : list event) :
  run es loaded = Some (after es) -> reachable (after es).
Proof.
  apply reachable_run. apply reachable_loaded, fresh_blank.
Qed.

Lemma sendMessage_one_message_one_request_witness :
  let st := after [user_types (lit "  hi ")] in
  trim (userInput_value st) <> []
  /\ chatBox (sendMessage st)
     = chatBox st ++ [Node 1 user (lit "hi"); Node 2 bot typing]
  /\ network (sendMessage st)
     = [Request (lit "http://127.0.0.1:5000/chat") (lit "POST")
                [(lit "Content-Type", lit "application/json")]
                (json_body (object [(lit "message", str (lit "hi"));
                                    (lit "last_uploaded_file", null)]))]
  /\ sendMessage loaded = loaded.
Proof.
  intros st.
  destruct (sendMessage_one_message_one_request st) as (Hsend & _).
  destruct (sendMessage_one_message_one_request loaded) as (_ & Hnone & _).
  assert (Hne : trim (userInput_value st) <> []) by (vm_compute; discriminate).
  destruct (Hsend Hne) as (Hc & _ & (payload & Hn & Hp) & _).
  change (lastUploadedFileName st) with null in Hp. cbv iota in Hp.
  split_and!; [exact Hne|exact Hc| |].
  - rewrite Hn, Hp. vm_compute. reflexivity.
  - apply Hnone. vm_compute. reflexivity.
Defined.

Lemma uploaded_unnamed_runs : run uploaded_unnamed loaded = Some (after uploaded_unnamed).
Proof. vm_compute. reflexivity. Qed.

(** C1, as the claim words it, fails.  The server acknowledges the upload
    of [a.csv] with the empty object, and line 112 remembers [undefined].
    The message the user sends next goes out as a POST to [/chat] whose
    body is [{message}] alone: there is no [last_uploaded_file] in it. *)
Theorem chat_body_without_last_uploaded_file :
  reachable (after uploaded_unnamed)
  /\ lastUploadedFileName (after uploaded_unnamed) = undefined
  /\ exists st',
       run [user_types (lit "hi"); click_sendButton] (after uploaded_unnamed) = Some st'
       /\ user_messages st' = [Node 2 user (lit "hi")]
       /\ network st'
          = [upload_request a_csv;
             Request (lit "http://127.0.0.1:5000/chat") (lit "POST")
                     [(lit "Content-Type", lit "application/json")]
                     (json_body (object [(lit "message", str (lit "hi"))]))].
Proof.
  split_and!.
  - exact (reachable_after _ uploaded_unnamed_runs).
  - vm_compute. reflexivity.
  - eexists. split_and!; vm_compute; reflexivity.
Qed.

Lemma uploadFile_success_witness :
  tasks (after uploading) !! 1%nat = Some uploadFile_await_data
  /\ exists st',
       step (json_settles 1 (json_value (upload_reply (lit "a.csv") (lit "ok"))))
            (after uploading) = Some st'
       /\ lastUploadedFileName st' = str (lit "a.csv")
       /\ uploadStatus_textContent st' = lit "ok"
       /\ uploadStatus_className st' = lit "status-message success"
       /\ chatBox st'
          = chatBox (after uploading) ++ [Node 1 bot (upload_confirmation (lit "a.csv"))]
       /\ includes (lit "a.csv") (upload_confirmation (lit "a.csv")) = true
       /\ tasks st' = delete 1%nat (tasks (after uploading)).
Proof.
  split; [vm_compute; reflexivity|].
  apply (uploadFile_success (after uploading) 1
           (upload_reply (lit "a.csv") (lit "ok")) (lit "a.csv") (lit "ok"));
    vm_compute; reflexivity.
Defined.

Lemma uploadFile_no_file_witness :
  csvFileInput_files loaded = []
  /\ exists st',
       step click_uploadButton loaded = Some st'
       /\ network st' = network loaded
       /\ tasks st' = tasks loaded
       /\ uploadStatus_textContent st' = lit "Please select a file first."
       /\ uploadStatus_className st' = lit "status-message error"
       /\ lastUploadedFileName st' = lastUploadedFileName loaded.
Proof.
  split; [reflexivity|].
  apply (uploadFile_no_file loaded). reflexivity.
Defined.

Lemma asking_runs : run asking loaded = Some (after asking).
Proof. vm_compute. reflexivity. Qed.

Lemma answered_runs (status : N) :
  status = 200 \/ status = 500 ->
  run (answered status) loaded = Some (after (answered status)).
Proof. intros [-> | ->]; vm_compute; reflexivity. Qed.

Lemma uploading_again_runs : run uploading_again loaded = Some (after uploading_again).
Proof. vm_compute. reflexivity. Qed.

Lemma sendMessage_transport_failure_witness :
  reachable (after asking)
  /\ tasks (after asking) !! 0%nat = Some (sendMessage_await_fetch 2)
  /\ exists st',
       step (fetch_settles 0 (fetch_rejected failed_to_fetch)) (after asking) = Some st'
       /\ chatBox st'
          = [Node 0 bot greeting; Node 1 user (lit "hi"); Node 3 bot connectivity_failure]
       /\ (2%nat ∉ ids st').
Proof.
  assert (Hr : reachable (after asking)) by exact (reachable_after asking asking_runs).
  assert (Hk : tasks (after asking) !! 0%nat = Some (sendMessage_await_fetch 2))
    by (vm_compute; reflexivity).
  split_and!; [exact Hr|exact Hk|].
  destruct (sendMessage_transport_failure (after asking) 0 2 failed_to_fetch Hr Hk)
    as (st' & Hs & Hc & Hout & _).
  exists st'. split_and!; [exact Hs|exact Hc|exact Hout].
Defined.

Lemma sendMessage_success_witness :
  reachable (after (answered 200))
  /\ tasks (after (answered 200)) !! 1%nat = Some (sendMessage_await_data 2)
  /\ exists st',
       step (json_settles 1 (json_value (chat_reply (str (lit "hi")))))
            (after (answered 200)) = Some st'
       /\ chatBox st'
          = [Node 0 bot greeting; Node 1 user (lit "hi"); Node 3 bot (lit "hi")]
       /\ (2%nat ∉ ids st').
Proof.
  assert (Hr : reachable (after (answered 200)))
    by exact (reachable_after _ (answered_runs 200 (or_introl eq_refl))).
  assert (Hk : tasks (after (answered 200)) !! 1%nat = Some (sendMessage_await_data 2))
    by (vm_compute; reflexivity).
  split_and!; [exact Hr|exact Hk|].
  destruct (sendMessage_success (after (answered 200)) 1 2
              (chat_reply (str (lit "hi"))) (lit "hi") Hr Hk eq_refl)
    as (st' & Hs & Hc & Hout & _).
  exists st'. split_and!; [exact Hs|exact Hc|exact Hout].
Defined.

Lemma sendMessage_unparseable_success_witness :
  reachable (after (answered 200))
  /\ tasks (after (answered 200)) !! 1%nat = Some (sendMessage_await_data 2)
  /\ exists st',
       step (json_settles 1 (json_rejected (Error (lit "Unexpected token"))))
            (after (answered 200)) = Some st'
       /\ chatBox st'
          = [Node 0 bot greeting; Node 1 user (lit "hi"); Node 3 bot connectivity_failure]
       /\ (2%nat ∉ ids st').
Proof.
  assert (Hr : reachable (after (answered 200)))
    by exact (reachable_after _ (answered_runs 200 (or_introl eq_refl))).
  assert (Hk : tasks (after (answered 200)) !! 1%nat = Some (sendMessage_await_data 2))
    by (vm_compute; reflexivity).
  split_and!; [exact Hr|exact Hk|].
  destruct (sendMessage_unparseable_success (after (answered 200)) 1 2
              (Error (lit "Unexpected token")) Hr Hk)
    as (st' & Hs & Hc & Hout & _).
  exists st'. split_and!; [exact Hs|exact Hc|exact Hout].
Defined.

Lemma placeholder_gone_after_sendMessage_witness :
  reachable (after (answered 500))
  /\ tasks (after (answered 500)) !! 1%nat = Some (sendMessage_await_errorData 2 500)
  /\ forall r, exists st' text,
       step (json_settles 1 r) (after (answered 500)) = Some st'
       /\ chatBox st' = chatBox (after (answered 500)) ++ [Node 3 bot text]
       /\ tasks st' = delete 1%nat (tasks (after (answered 500)))
       /\ stays_out 2 st'.
Proof.
  assert (Hr : reachable (after (answered 500)))
    by exact (reachable_after _ (answered_runs 500 (or_intror eq_refl))).
  assert (Hk : tasks (after (answered 500)) !! 1%nat
               = Some (sendMessage_await_errorData 2 500))
    by (vm_compute; reflexivity).
  split_and!; [exact Hr|exact Hk|].
  destruct (placeholder_gone_after_sendMessage (after (answered 500)) 1 2 Hr)
    as (_ & Herr & _).
  exact (Herr 500 Hk).
Defined.

Lemma lastUploadedFileName_written_by_upload_only_witness :
  let e := json_settles 1 (json_value (upload_reply (lit "a.csv") (lit "ok"))) in
  step e (after uploading) = Some (after uploaded)
  /\ ((exists k data text,
         e = json_settles k (json_value data)
         /\ tasks (after uploading) !! k = Some uploadFile_await_data
         /\ (message ← Get data (lit "message"); DOMString message) = Ok text
         /\ Get data (lit "filename") = Ok (lastUploadedFileName (after uploaded)))
      \/ (lastUploadedFileName (after uploaded) = lastUploadedFileName (after uploading)
          /\ forall k data text,
               e = json_settles k (json_value data) ->
               tasks (after uploading) !! k = Some uploadFile_await_data ->
               (message ← Get data (lit "message"); DOMString message) <> Ok text)).
Proof.
  intros e.
  assert (Hs : step e (after uploading) = Some (after uploaded))
    by (vm_compute; reflexivity).
  split; [exact Hs|].
  exact (lastUploadedFileName_written_by_upload_only _ _ _ Hs).
Defined.

(** C3, as the claim words it, fails, twice over.  After [a.csv] has been
    remembered, a second upload that the server acknowledges with an empty
    [filename] leaves the empty string remembered.  And when the server
    acknowledges it with a [filename] that does not print, the upload ends
    in the [catch] block, reported as failed and with no confirmation in
    the chat box, yet the remembered name is that value and no longer
    [a.csv]. *)
Lemma lastUploadedFileName_emptied_by_upload :
  reachable (after uploading_again)
  /\ lastUploadedFileName (after uploading_again) = str (lit "a.csv")
  /\ (exists st',
        step (json_settles 3 (json_value (upload_reply [] (lit "ok"))))
             (after uploading_again) = Some st'
        /\ lastUploadedFileName st' = str []
        /\ uploadStatus_className st' = lit "status-message success")
  /\ (exists st',
        step (json_settles 3 (json_value unprintable_reply)) (after uploading_again)
        = Some st'
        /\ lastUploadedFileName st' = unprintable
        /\ uploadStatus_textContent st'
           = lit "Upload failed: Cannot convert object to primitive value"
        /\ uploadStatus_className st' = lit "status-message error"
        /\ chatBox st' = chatBox (after uploading_again)).
Proof.
  split_and!.
  - exact (reachable_after _ uploading_again_runs).
  - vm_compute. reflexivity.
  - eexists. split_and!; vm_compute; reflexivity.
  - eexists. split_and!; vm_compute; reflexivity.
Qed.


(** C5, where the script departs from it.  A response with status 500
    whose body is the JSON text [null]: reading [response] from it throws,
    the [catch] block runs, and the message shown is the connectivity
    text, with no [Bot Error: ] in front and no status code in it. *)
Theorem null_error_body_reported_as_connectivity_failure :
  tasks (after (answered 500)) !! 1%nat = Some (sendMessage_await_errorData 2 500)
  /\ exists st',
       step (json_settles 1 (json_value null)) (after (answered 500)) = Some st'
       /\ chatBox st'
          = chatBox (after (answered 500)) ++ [Node 3 bot connectivity_failure]
       /\ startsWith (lit "Bot Error: ") connectivity_failure = false
       /\ includes (decimal 500) connectivity_failure = false.
Proof.
  split; [vm_compute; reflexivity|].
  eexists. split; [vm_compute; reflexivity|].
  split_and!; vm_compute; reflexivity.
Qed.

Lemma sendMessage_error_response_witness :
  tasks (after (answered 500)) !! 1%nat = Some (sendMessage_await_errorData 2 500)
  /\ (exists st',
        step (json_settles 1 (json_value (chat_reply (str (lit "server error")))))
             (after (answered 500)) = Some st'
        /\ chatBox st'
           = chatBox (after (answered 500))
             ++ [Node 3 bot (lit "Bot Error: " ++ lit "server error")])
  /\ (exists st',
        step (json_settles 1 (json_rejected (Error (lit "Unexpected token"))))
             (after (answered 500)) = Some st'
        /\ chatBox st'
           = chatBox (after (answered 500))
             ++ [Node 3 bot (lit "Bot Error: " ++ lit "HTTP error! status: 500")]).
Proof.
  assert (Hk : tasks (after (answered 500)) !! 1%nat
               = Some (sendMessage_await_errorData 2 500))
    by (vm_compute; reflexivity).
  destruct (sendMessage_error_response (after (answered 500)) 1 2 500 Hk)
    as (Hrejected & _ & _ & Hstring & _).
  split_and!; [exact Hk| |].
  - apply (Hstring (chat_reply (str (lit "server error"))) (lit "server error"));
      [reflexivity|discriminate].
  - exact (Hrejected (Error (lit "Unexpected token"))).
Defined.

Lemma reachable_page_invariant_witness :
  reachable (after (answered 500))
  /\ NoDup (ids (after (answered 500)))
  /\ task_ok (after (answered 500)) (sendMessage_await_errorData 2 500).
Proof.
  assert (Hr : reachable (after (answered 500)))
    by exact (reachable_after _ (answered_runs 500 (or_intror eq_refl))).
  destruct (reachable_page_invariant _ Hr) as (Hnd & _ & Ht).
  split_and!; [exact Hr|exact Hnd|].
  apply (Ht 1%nat). vm_compute. reflexivity.
Defined.


Lemma uploadFile_error_response_witness :
  tasks (after refused) !! 1%nat = Some (uploadFile_await_errorData 400)
  /\ (exists st',
        step (json_settles 1 (json_value (object [(lit "message", str (lit "No file part"))])))
             (after refused) = Some st'
        /\ uploadStatus_textContent st' = lit "Upload failed: " ++ lit "No file part"
        /\ uploadStatus_className st' = lit "status-message error"
        /\ chatBox st' = chatBox (after refused)
        /\ lastUploadedFileName st' = lastUploadedFileName (after refused)
        /\ network st' = network (after refused)
        /\ tasks st' = delete 1%nat (tasks (after refused)))
  /\ (exists st',
        step (json_settles 1 (json_rejected (Error (lit "Unexpected token"))))
             (after refused) = Some st'
        /\ uploadStatus_textContent st'
           = lit "Upload failed: " ++ (lit "HTTP error! status: " ++ decimal 400)
        /\ uploadStatus_className st' = lit "status-message error"
        /\ chatBox st' = chatBox (after refused)
        /\ lastUploadedFileName st' = lastUploadedFileName (after refused)
        /\ network st' = network (after refused)
        /\ tasks st' = delete 1%nat (tasks (after refused))).
Proof.
  assert (Hk : tasks (after refused) !! 1%nat = Some (uploadFile_await_errorData 400))
    by (vm_compute; reflexivity).
  destruct (uploadFile_error_response (after refused) 1 400 Hk)
    as (Hrejected & _ & Htruthy & _).
  split_and!; [exact Hk| |].
  - apply (Htruthy (object [(lit "message", str (lit "No file part"))])
             (str (lit "No file part")) (lit "No file part")); reflexivity.
  - exact (Hrejected (Error (lit "Unexpected token"))).
Defined.

Lemma uploadFile_failure_witness :
  tasks (after [user_selects [a_csv]; click_uploadButton]) !! 0%nat
  = Some uploadFile_await_fetch
  /\ exists st',
       step (fetch_settles 0 (fetch_rejected failed_to_fetch))
            (after [user_selects [a_csv]; click_uploadButton]) = Some st'
       /\ uploadStatus_textContent st' = lit "Upload failed: " ++ lit "Failed to fetch".
Proof.
  assert (Hk : tasks (after [user_selects [a_csv]; click_uploadButton]) !! 0%nat
               = Some uploadFile_await_fetch) by (vm_compute; reflexivity).
  split; [exact Hk|].
  destruct (uploadFile_failure (after [user_selects [a_csv]; click_uploadButton]) 0)
    as [Hfetch _].
  destruct (Hfetch Hk failed_to_fetch) as (st' & Hs & Ht & _).
  exists st'. split; [exact Hs|exact Ht].
Defined.

Lemma uploadFile_success_any_body_witness :
  tasks (after uploading) !! 1%nat = Some uploadFile_await_data
  /\ exists st',
       step (json_settles 1 (json_value (object []))) (after uploading) = Some st'
       /\ uploadStatus_textContent st' = []
       /\ uploadStatus_className st' = lit "status-message success"
       /\ lastUploadedFileName st' = undefined
       /\ chatBox st'
          = chatBox (after uploading)
            ++ [Node 1 bot (upload_confirmation (lit "undefined"))]
       /\ network st' = network (after uploading)
       /\ tasks st' = delete 1%nat (tasks (after uploading)).
Proof.
  assert (Hk : tasks (after uploading) !! 1%nat = Some uploadFile_await_data)
    by (vm_compute; reflexivity).
  split; [exact Hk|].
  apply (uploadFile_success_any_body (after uploading) 1 (object []) undefined undefined
           [] (lit "undefined") Hk); reflexivity.
Defined.

Lemma two_uploads_run : run two_uploads loaded = Some (after two_uploads).
Proof. vm_compute. reflexivity. Qed.

Lemma last_upload_response_wins_witness :
  tasks (after two_uploads) !! 3%nat = Some uploadFile_await_data
  /\ tasks (after two_uploads) !! 2%nat = Some uploadFile_await_data
  /\ exists st',
       run [json_settles 3 (json_value (upload_reply (lit "b.csv") (lit "second")));
            json_settles 2 (json_value (upload_reply (lit "a.csv") (lit "first")))]
           (after two_uploads) = Some st'
       /\ lastUploadedFileName st' = str (lit "a.csv")
       /\ uploadStatus_textContent st' = lit "first".
Proof.
  assert (H3 : tasks (after two_uploads) !! 3%nat = Some uploadFile_await_data)
    by (vm_compute; reflexivity).
  assert (H2 : tasks (after two_uploads) !! 2%nat = Some uploadFile_await_data)
    by (vm_compute; reflexivity).
  split_and!; [exact H3|exact H2|].
  destruct (last_upload_response_wins (after two_uploads) 3 2
              (upload_reply (lit "b.csv") (lit "second"))
              (upload_reply (lit "a.csv") (lit "first"))
              (lit "b.csv") (lit "second") (lit "a.csv") (lit "first")
              H3 H2 ltac:(discriminate) eq_refl eq_refl eq_refl eq_refl)
    as (st' & Hrun & Hname & Htext & _).
  exists st'. split_and!; [exact Hrun|exact Hname|exact Htext].
Defined.

Lemma chat_after_upload_names_the_file_witness :
  tasks (after uploading) !! 1%nat = Some uploadFile_await_data
  /\ trim (lit " summarize it ") <> []
  /\ exists st',
       run [json_settles 1 (json_value (upload_reply (lit "a.csv") (lit "ok")));
            user_types (lit " summarize it "); click_sendButton]
           (after uploading) = Some st'
       /\ network st'
          = network (after uploading)
            ++ [chat_request (trim (lit " summarize it ")) (str (lit "a.csv"))].
Proof.
  assert (Hk : tasks (after uploading) !! 1%nat = Some uploadFile_await_data)
    by (vm_compute; reflexivity).
  assert (Hne : trim (lit " summarize it ") <> []) by (vm_compute; discriminate).
  split_and!; [exact Hk|exact Hne|].
  destruct (chat_after_upload_names_the_file (after uploading) 1
              (upload_reply (lit "a.csv") (lit "ok")) (lit "a.csv") (lit "ok")
              (lit " summarize it ") Hk eq_refl eq_refl Hne)
    as (st' & Hrun & Hnet & _).
  exists st'. split; [exact Hrun|exact Hnet].
Defined.

Lemma sendMessage_ok_any_body_witness :
  reachable (after (answered 200))
  /\ tasks (after (answered 200)) !! 1%nat = Some (sendMessage_await_data 2)
  /\ (exists st',
        step (json_settles 1 (json_value (object []))) (after (answered 200)) = Some st'
        /\ chatBox st' = chatBox (after (answered 200)) ++ [Node 3 bot []])
  /\ (exists st',
        step (json_settles 1 (json_value null)) (after (answered 200)) = Some st'
        /\ chatBox st'
           = chatBox (after (answered 200)) ++ [Node 3 bot connectivity_failure]).
Proof.
  assert (Hr : reachable (after (answered 200)))
    by exact (reachable_after _ (answered_runs 200 (or_introl eq_refl))).
  assert (Hk : tasks (after (answered 200)) !! 1%nat = Some (sendMessage_await_data 2))
    by (vm_compute; reflexivity).
  split_and!; [exact Hr|exact Hk| |].
  - destruct (sendMessage_ok_any_body (after (answered 200)) 1 2 (object []) Hr Hk)
      as [Hshown _].
    exact (Hshown undefined [] eq_refl eq_refl).
  - destruct (sendMessage_ok_any_body (after (answered 200)) 1 2 null Hr Hk)
      as [_ Hthrown].
    exact (Hthrown (TypeError (reads_null (lit "response"))) eq_refl).
Defined.

Lemma requests_only_on_user_action_witness :
  step click_uploadButton (after selecting)
  = Some (after [user_selects [a_csv]; click_uploadButton])
  /\ (network (after [user_selects [a_csv]; click_uploadButton]) = network (after selecting)
      \/ exists r,
           network (after [user_selects [a_csv]; click_uploadButton])
           = network (after selecting) ++ [r]
           /\ (click_uploadButton = click_sendButton
               \/ click_uploadButton = keypress_userInput (lit "Enter")
               \/ click_uploadButton = click_uploadButton)).
Proof.
  assert (Hs : step click_uploadButton (after selecting)
               = Some (after [user_selects [a_csv]; click_uploadButton]))
    by (vm_compute; reflexivity).
  split; [exact Hs|].
  exact (requests_only_on_user_action _ _ _ Hs).
Defined.

Lemma uploaded_runs : run uploaded loaded = Some (after uploaded).
Proof. vm_compute. reflexivity. Qed.

Lemma status_always_has_timer_witness :
  status_has_timer loaded
  /\ run uploaded loaded = Some (after uploaded)
  /\ status_has_timer (after uploaded).
Proof.
  assert (H0 : status_has_timer loaded) by (left; reflexivity).
  split_and!; [exact H0|exact uploaded_runs|].
  exact (status_always_has_timer uploaded loaded (after uploaded) H0 uploaded_runs).
Defined.


Lemma reachable_loaded_blank : reachable loaded.
Proof. apply reachable_loaded, fresh_blank. Qed.

Lemma transcript_only_grows_witness :
  reachable loaded
  /\ run (answered 200) loaded = Some (after (answered 200))
  /\ transcript loaded `prefix_of` transcript (after (answered 200)).
Proof.
  assert (Hrun : run (answered 200) loaded = Some (after (answered 200)))
    by exact (answered_runs 200 (or_introl eq_refl)).
  split_and!; [exact reachable_loaded_blank|exact Hrun|].
  exact (transcript_only_grows (answered 200) loaded _ reachable_loaded_blank Hrun).
Defined.

Lemma invocations_independent_witness :
  reachable (after two_uploads)
  /\ tasks (after two_uploads) !! 2%nat = Some uploadFile_await_data
  /\ (st' ← step (json_settles 3 (json_value (upload_reply (lit "b.csv") (lit "second"))))
                 (after two_uploads);
      tasks st' !! 2%nat) = Some uploadFile_await_data.
Proof.
  assert (Hr : reachable (after two_uploads))
    by exact (reachable_after _ two_uploads_run).
  assert (Hk : tasks (after two_uploads) !! 2%nat = Some uploadFile_await_data)
    by (vm_compute; reflexivity).
  split_and!; [exact Hr|exact Hk|].
  destruct (step (json_settles 3 (json_value (upload_reply (lit "b.csv") (lit "second"))))
              (after two_uploads)) as [st'|] eqn:Hs; [|by vm_compute in Hs].
  simpl.
  exact (invocations_independent
           (json_settles 3 (json_value (upload_reply (lit "b.csv") (lit "second"))))
           (after two_uploads) st' 2 uploadFile_await_data Hr Hk
           ltac:(intros; discriminate) ltac:(intros; congruence) Hs).
Defined.

Lemma exchange_leaves_question_and_answer_witness :
  reachable loaded
  /\ trim (lit "  hi ") <> []
  /\ exists st',
       run [user_types (lit "  hi "); click_sendButton;
            fetch_settles 0 (fetch_rejected failed_to_fetch)] loaded = Some st'
       /\ chatBox st'
          = chatBox loaded ++ [Node 1 user (trim (lit "  hi "));
                               Node 3 bot connectivity_failure]
       /\ tasks st' = tasks loaded.
Proof.
  assert (Hne : trim (lit "  hi ") <> []) by (vm_compute; discriminate).
  split_and!; [exact reachable_loaded_blank|exact Hne|].
  destruct (exchange_leaves_question_and_answer loaded (lit "  hi ")
              reachable_loaded_blank Hne) as [Hrejected _].
  exact (Hrejected failed_to_fetch).
Defined.


Lemma no_file_name_before_upload_witness :
  fresh_page blank
  /\ Forall (fun e => e <> click_uploadButton) (answered 200)
  /\ run (answered 200) (DOMContentLoaded blank) = Some (after (answered 200))
  /\ lastUploadedFileName (after (answered 200)) = null.
Proof.
  assert (Hes : Forall (fun e => e <> click_uploadButton) (answered 200))
    by (repeat constructor; discriminate).
  assert (Hrun : run (answered 200) (DOMContentLoaded blank) = Some (after (answered 200)))
    by exact (answered_runs 200 (or_introl eq_refl)).
  split_and!; [exact fresh_blank|exact Hes|exact Hrun|].
  destruct (no_file_name_before_upload blank (answered 200) _ fresh_blank Hes Hrun)
    as [Hnull _].
  exact Hnull.
Defined.

End Examples.
